(** * kuusi: view routing of the distrochooser questionnaire

    A shallow embedding of [code/kuusi/web/routes/web.py]: the page-chain
    traversal ([get_page_route]), session resolution ([get_session],
    [get_fresh_session]), selection cloning ([clone_selections]), the
    outgoing-link router ([route_outgoing]) and the request handler
    ([route_index]).

    The ORM is modelled as a store of tables (lists of rows in primary-key
    order); Python dictionaries ([request.session], [request.headers],
    [request.GET], [choosable.meta]) are finite maps; Python exceptions are
    the [Raised] outcome, and a [while] loop that has not finished when the
    fuel is spent is the [Diverged] outcome. *)

From Stdlib Require Import ZArith Ascii String List Bool Lia.
From stdpp Require Import base option list gmap strings fin_maps.
Import ListNotations.

Open Scope string_scope.
Open Scope list_scope.
Open Scope Z_scope.

(** ** Outcomes of Python code *)

Inductive exn : Type :=
  | AttributeError          (* attribute access on [None] *)
  | IndexError              (* [l[0]] on an empty list *)
  | KeyError
  | TypeError               (* call of a value that is not callable *)
  | Http404
  | DoesNotExist            (* [Model.objects.get] / dangling reference *)
  | MultipleObjectsReturned.

Inductive outcome (A : Type) : Type :=
  | Returned (a : A)
  | Raised (e : exn)
  | Diverged.

Arguments Returned {A} a.
Arguments Raised {A} e.
Arguments Diverged {A}.

#[global] Instance outcome_ret : MRet outcome := fun A a => Returned a.
#[global] Instance outcome_bind : MBind outcome := fun A B k m =>
  match m with
  | Returned a => k a
  | Raised e => Raised e
  | Diverged => Diverged
  end.

(** ** Rows of the tables used by the views

    [web.models] is not part of the routed module; rows carry the fields
    that [web.py] reads or writes.  Primary keys are integers, foreign keys
    hold the primary key of the row they refer to. *)

Record Page : Type := mkPage {
  page_pk : Z;
  catalogue_id : string;
  is_invalidated : bool;
  require_session : bool;
  href : string;
  previous_page : option Z;
  next_page : option Z
}.

Record Session : Type := mkSession {
  session_pk : Z;
  result_id : string;
  valid_for : string;
  session_origin : option Z;
  language_code : string;
  user_agent : option string;
  referrer : option string
}.

Record FacetteSelection : Type := mkSelection {
  selection_pk : Z;
  selection_session : Z;
  facette : Z;
  (* the remaining columns of the row, copied verbatim by a clone *)
  selection_data : string
}.

Record Category : Type := mkCategory {
  category_pk : Z;
  target_page : Z;
  child_of : option Z;
  icon : string
}.

Record ChoosableMeta : Type := mkMeta {
  meta_value : string
}.

Record Choosable : Type := mkChoosable {
  choosable_pk : Z;
  clicked : Z;
  meta : gmap string ChoosableMeta
}.

Record Store : Type := mkStore {
  page_table : list Page;
  session_table : list Session;
  selection_table : list FacetteSelection;
  category_table : list Category;
  choosable_table : list Choosable
}.

(** [Model.objects.filter(...)] keeps the matching rows in table order,
    [.first()] is the head of the result (or [None]), [.count()] its length. *)
Definition first {A} (rows : list A) : option A := head rows.

(** A saved row gets the next free primary key. *)
Definition fresh_pk {A} (pk : A -> Z) (rows : list A) : Z :=
  1 + fold_right Z.max 0 (map pk rows).

(** ** Page chain *)

Definition page_by_pk (st : Store) (k : Z) : option Page :=
  first (List.filter (fun p => Z.eqb (page_pk p) k) (page_table st)).

(** Reading [page.previous_page] / [page.next_page]: [None] for a null
    reference, the referenced row otherwise. *)
Definition follow (st : Store) (ref : option Z) : outcome (option Page) :=
  match ref with
  | None => Returned None
  | Some k =>
      match page_by_pk st k with
      | Some q => Returned (Some q)
      | None => Raised DoesNotExist
      end
  end.

(** The first loop of [get_page_route].  A model instance is always truthy,
    so the [else] branch of [if prev_page:] is never taken inside the loop. *)
Fixpoint walk_previous (fuel : nat) (st : Store)
    (prev_page : option Page) (pages : list Page) : outcome (list Page) :=
  match prev_page with
  | None => Returned pages
  | Some p =>
      match fuel with
      | O => Diverged
      | S fuel' =>
          let pages := [p] ++ pages in
          prev_page ← follow st (previous_page p);
          walk_previous fuel' st prev_page pages
      end
  end.

(** The second loop; it hands back the loop variable [next_page] as it is
    when the loop is left, together with the list. *)
Fixpoint walk_next (fuel : nat) (st : Store)
    (next : option Page) (pages : list Page)
    : outcome (option Page * list Page) :=
  match next with
  | None => Returned (next, pages)
  | Some p =>
      match fuel with
      | O => Diverged
      | S fuel' =>
          let pages := pages ++ [p] in
          next ← follow st (next_page p);
          walk_next fuel' st next pages
      end
  end.

Definition get_page_route (fuel : nat) (st : Store) (page : Page)
    : outcome (option Page * list Page) :=
  let pages := [] in
  prev_page ← follow st (previous_page page);
  pages ← walk_previous fuel st prev_page pages;
  let pages := pages ++ [page] in
  next ← follow st (next_page page);
  walk_next fuel st next pages.

(** ** The request object and the view monad *)

Record WebHttpRequest : Type := mkRequest {
  session : gmap string string;      (* [request.session] *)
  headers : gmap string string;      (* [request.headers], lower-case keys *)
  GET : gmap string string;          (* [request.GET] *)
  method : string;
  full_path : string;                (* [request.get_full_path()] *)
  (* attributes attached by [route_index] *)
  session_obj : option Session;
  has_errors : bool;
  has_warnings : bool;
  LANGUAGE_CODE : option string
}.

(** [request.session[key] = value] *)
Definition set_session_item (key value : string) (r : WebHttpRequest)
    : WebHttpRequest :=
  mkRequest (<[key := value]> (session r)) (headers r) (GET r) (method r)
    (full_path r) (session_obj r) (has_errors r) (has_warnings r)
    (LANGUAGE_CODE r).

(** [request.session_obj = s; request.has_errors = False;
     request.has_warnings = False] *)
Definition onboard_session (s : Session) (r : WebHttpRequest)
    : WebHttpRequest :=
  mkRequest (session r) (headers r) (GET r) (method r) (full_path r)
    (Some s) false false (LANGUAGE_CODE r).

Definition set_LANGUAGE_CODE (code : string) (r : WebHttpRequest)
    : WebHttpRequest :=
  mkRequest (session r) (headers r) (GET r) (method r) (full_path r)
    (session_obj r) (has_errors r) (has_warnings r) (Some code).

(** [request.session_obj] is an alias of the handler's [session] object:
    a later write to the object is seen through the request as well. *)
Definition refresh_session_obj (s : Session) (r : WebHttpRequest)
    : WebHttpRequest :=
  mkRequest (session r) (headers r) (GET r) (method r) (full_path r)
    (Some s) (has_errors r) (has_warnings r) (LANGUAGE_CODE r).

Record World : Type := mkWorld {
  db : Store;
  request : WebHttpRequest
}.

(** A view function reads and writes the database and the request, and
    either returns, raises, or does not come back. *)
Definition view (A : Type) : Type := World -> outcome (A * World).

#[global] Instance view_ret : MRet view := fun A a w => Returned (a, w).
#[global] Instance view_bind : MBind view := fun A B k m w =>
  match m w with
  | Returned (a, w') => k a w'
  | Raised e => Raised e
  | Diverged => Diverged
  end.

Definition raise {A} (e : exn) : view A := fun _ => Raised e.
Definition get_db : view Store := fun w => Returned (db w, w).
Definition get_request : view WebHttpRequest :=
  fun w => Returned (request w, w).
Definition put_db (st : Store) : view unit :=
  fun w => Returned (tt, mkWorld st (request w)).
Definition put_request (r : WebHttpRequest) : view unit :=
  fun w => Returned (tt, mkWorld (db w) r).
Definition lift {A} (o : outcome A) : view A :=
  fun w => x ← o; Returned (x, w).

(** Attribute access on a value that may be [None]. *)
Definition attr {A} (o : option A) : view A :=
  match o with
  | Some a => mret a
  | None => raise AttributeError
  end.

(** ** Sessions *)

Definition set_session_table (rows : list Session) (st : Store) : Store :=
  mkStore (page_table st) rows (selection_table st) (category_table st)
    (choosable_table st).

Definition set_selection_table (rows : list FacetteSelection) (st : Store)
    : Store :=
  mkStore (page_table st) (session_table st) rows (category_table st)
    (choosable_table st).

Definition set_choosable_table (rows : list Choosable) (st : Store) : Store :=
  mkStore (page_table st) (session_table st) (selection_table st)
    (category_table st) rows.

(** [row.save()]: the row with the same primary key is overwritten, a row
    with a new primary key is appended. *)
Definition save_row {A} (pk : A -> Z) (row : A) (rows : list A) : list A :=
  if existsb (fun r => pk r =? pk row) rows
  then map (fun r => if pk r =? pk row then row else r) rows
  else rows ++ [row].

Definition Session_save (s : Session) : view unit :=
  st ← get_db;
  put_db (set_session_table (save_row session_pk s (session_table st)) st).

Definition Session_by_result_id (st : Store) (id : string) : option Session :=
  first (List.filter (fun s => String.eqb (result_id s) id) (session_table st)).

Definition with_referrer (ref : option string) (s : Session) : Session :=
  mkSession (session_pk s) (result_id s) (valid_for s) (session_origin s)
    (language_code s) (user_agent s) ref.

Definition with_language_code (code : string) (s : Session) : Session :=
  mkSession (session_pk s) (result_id s) (valid_for s) (session_origin s)
    code (user_agent s) (referrer s).

Definition with_origin (old : Session) (s : Session) : Session :=
  mkSession (session_pk s) (result_id s) (valid_for old)
    (Some (session_pk old)) (language_code s) (user_agent s) (referrer s).

Definition selections_of (st : Store) (s : Z) : list FacetteSelection :=
  List.filter (fun x => selection_session x =? s) (selection_table st).

Definition selections_for (st : Store) (s f : Z) : list FacetteSelection :=
  List.filter (fun x => (selection_session x =? s) && (facette x =? f))
    (selection_table st).

(** [selection.pk = None; selection.session = session; selection.save()] *)
Definition copy_selection (session : Session) (selection : FacetteSelection)
    (st : Store) : Store :=
  let row := mkSelection (fresh_pk selection_pk (selection_table st))
               (session_pk session) (facette selection)
               (selection_data selection) in
  set_selection_table (save_row selection_pk row (selection_table st)) st.

(** The [for selection in selections] loop of [clone_selections]. *)
Fixpoint copy_selections (session : Session)
    (selections : list FacetteSelection) (st : Store) : Store :=
  match selections with
  | [] => st
  | selection :: rest =>
      let st :=
        if (Z.of_nat (length (selections_for st (session_pk session)
                                 (facette selection))) =? 0)
        then copy_selection session selection st
        else st in
      copy_selections session rest st
  end.

Section Views.

(** Parts of the application that live outside [web.py]. *)
Variable new_result_id : Store -> string.   (* default of [Session.result_id] *)
Variable default_valid_for : string.        (* default of [Session.valid_for] *)
Variable default_session_language : string. (* default of [Session.language_code] *)

(** [Session(user_agent=..., session_origin=...)]: the object as the
    following [save()] stores it, primary key included. *)
Definition Session_new (st : Store) (ua : option string) (origin : option Z)
    : Session :=
  mkSession (fresh_pk session_pk (session_table st)) (new_result_id st)
    default_valid_for origin default_session_language ua None.

Definition get_fresh_session : view Session :=
  request ← get_request;
  let user_agent := headers request !! "user-agent" in
  st ← get_db;
  let session := Session_new st user_agent None in
  _ ← Session_save session;
  let session := with_referrer (headers request !! "referrer") session in
  mret session.

Definition get_session (page : Page) : view Session :=
  request ← get_request;
  session ←
    (if require_session page then
       match session request !! "result_id" with
       | None =>
           session ← get_fresh_session;
           mret (Some session)
       | Some rid =>
           st ← get_db;
           let session := Session_by_result_id st rid in
           found ← attr session;
           if negb (String.eqb (valid_for found) "latest")
           then session ← get_fresh_session; mret (Some session)
           else mret session
       end
     else mret None);
  session ← attr session;
  request ← get_request;
  _ ← put_request (set_session_item "result_id" (result_id session) request);
  mret session.

(** The caller's [session] object is handed back as the call leaves it:
    updated in place in the copying branch, untouched otherwise (the second
    branch rebinds the local name only). *)
Definition clone_selections (id : string) (session : Session)
    : view Session :=
  st ← get_db;
  let old_session := Session_by_result_id st id in
  match old_session with
  | Some old_session =>
      match session_origin session with
      | None =>
          let selections := selections_of st (session_pk old_session) in
          _ ← put_db (copy_selections session selections st);
          let session := with_origin old_session session in
          _ ← Session_save session;
          mret session
      | Some origin =>
          if negb (origin =? session_pk old_session) then
            request ← get_request;
            let user_agent := headers request !! "user-agent" in
            st ← get_db;
            let session' :=
              Session_new st user_agent (Some (session_pk old_session)) in
            _ ← Session_save session';
            request ← get_request;
            _ ← put_request
                  (set_session_item "result_id" (result_id session') request);
            mret session
          else mret session
      end
  | None => mret session
  end.

(** ** Outgoing links *)

Inductive HttpResponse : Type :=
  | HttpResponse_ (content : string) (status : option Z)
  | HttpResponseNotAllowed (permitted : string)
  | HttpResponseRedirect (url : string).

Definition status_code (r : HttpResponse) : Z :=
  match r with
  | HttpResponse_ _ status => default 200 status
  | HttpResponseNotAllowed _ => 405
  | HttpResponseRedirect _ => 302
  end.

Variable str_upper : string -> string.      (* [str.upper] *)

Definition with_clicked (n : Z) (c : Choosable) : Choosable :=
  mkChoosable (choosable_pk c) n (meta c).

Definition Choosable_save (c : Choosable) : view unit :=
  st ← get_db;
  put_db (set_choosable_table
            (save_row choosable_pk c (choosable_table st)) st).

Definition route_outgoing (id : Z) (property : string) : view HttpResponse :=
  st ← get_db;
  let got := List.filter (fun c => choosable_pk c =? id) (choosable_table st) in
  let property := str_upper property in
  if Z.of_nat (length got) =? 1 then
    match first got with
    | Some choosable =>
        match meta choosable !! property with
        | None => raise Http404
        | Some entry =>
            let choosable := with_clicked (clicked choosable + 1) choosable in
            _ ← Choosable_save choosable;
            mret (HttpResponseRedirect (meta_value entry))
        end
    | None => raise Http404
    end
  else raise Http404.

(** ** Navigation data *)

Variable is_visible : Store -> Page -> Session -> bool.  (* [Page.is_visible] *)
Variable next_visible_page : Page -> Session -> view (option Page).
Variable Step : Type.
Variable to_step : Category -> WebHttpRequest -> option bool -> Step.

Definition top_categories_of (st : Store) (p : Page) : list Category :=
  List.filter (fun c => (target_page c =? page_pk p)
                   && match child_of c with None => true | Some _ => false end)
    (category_table st).

Definition get_categories_and_filtered_pages (st : Store)
    (pages : list Page) (session : Session) : list Page * list Category :=
  let version_comp_pages := List.filter (fun p => is_visible st p session) pages in
  let categories :=
    flat_map (fun chained_page =>
                let used_in_category := top_categories_of st chained_page in
                if 0 <? Z.of_nat (length used_in_category)
                then option_list (first used_in_category) else [])
      pages in
  (version_comp_pages, categories).

Record StepData : Type := mkStepData {
  step_icon : string;
  major : Step;
  minor : list Step
}.

Definition children_of (st : Store) (c : Category) : list Category :=
  List.filter (fun x => match child_of x with
                   | Some k => k =? category_pk c
                   | None => false
                   end) (category_table st).

Definition build_step_data (st : Store) (categories : list Category)
    (request : WebHttpRequest) : list StepData :=
  imap (fun index category =>
          let category_step :=
            to_step category request
              (Some (Z.of_nat index =? Z.of_nat (length categories) - 1)) in
          let minor_steps :=
            map (fun child_category => to_step child_category request None)
              (children_of st category) in
          mkStepData (icon category) category_step minor_steps)
    categories.

(** ** The request handler *)

Variable DEFAULT_LANGUAGE_CODE : string.              (* [kuusi.settings] *)
Variable INCOMPLETE_TRANSLATIONS : list string.
(** [forward_helper(id, overwrite_status, session, base_url, page, request)] *)
Variable forward_helper :
  option string -> option Z -> Session -> string -> Page ->
  view (option Z * option HttpResponse).

(** The entries of the template context that the handler computes; the
    remaining entries are constants of [kuusi.settings]. *)
Record Context : Type := mkContext {
  ctx_page : Page;
  ctx_steps : list StepData;
  ctx_language_code : string;
  ctx_session : Session;
  ctx_is_old : bool;
  ctx_locale_incomplete : bool
}.

Variable render : Context -> WebHttpRequest -> string. (* [template.render] *)

(** Python truthiness of the values the handler tests. *)
Definition truthy_str (o : option string) : bool :=
  match o with Some s => negb (String.eqb s "") | None => false end.
Definition truthy_int (o : option Z) : bool :=
  match o with Some n => negb (n =? 0) | None => false end.

(** [needle in hay] on strings. *)
Fixpoint str_contains (needle hay : string) : bool :=
  String.prefix needle hay
  || match hay with
     | EmptyString => false
     | String _ rest => str_contains needle rest
     end.

(** [Page.objects.get(...)] over the rows matching the lookup. *)
Definition objects_get {A} (rows : list A) : outcome A :=
  match rows with
  | [] => Raised DoesNotExist
  | [row] => Returned row
  | _ => Raised MultipleObjectsReturned
  end.

(** [l[0]] *)
Definition item0 {A} (l : list A) : view A :=
  match l with
  | x :: _ => mret x
  | [] => raise IndexError
  end.

(** [callee(arg)] for a value that is [None] or a model instance: neither
    is callable. *)
Definition call (callee : option Page) (arg : string) : view string :=
  match callee with
  | None => raise TypeError
  | Some _ => raise TypeError
  end.

(** The handler from [current_location = ...] to the response; [lang] is
    its [language_code] argument.  [underscore] is the handler's local
    [_]: the module imports [gettext_lazy] under that name, but the
    assignment [_, pages = get_page_route(page)] makes [_] a local of
    [route_index], so [_("PAGE_NOT_AVAILABLE")] calls the first component
    of the route. *)
Definition route_index_render (underscore : option Page)
    (lang id : option string) (page : Page) (session : Session) (pages : list Page)
    (categories : list Category) (overwrite_status : option Z)
    (base_url : string) : view HttpResponse :=
  request ← get_request;
  let current_location := full_path request in
  current_location ←
    (if Z.of_nat (String.length current_location) <=? 1
     then first_page ← item0 pages; mret (base_url +:+ href first_page)
     else mret current_location);
  st ← get_db;
  page ←
    (if negb (is_visible st page session)
     then next_visible_page page session
     else mret (Some page));
  st ← get_db;
  request ← get_request;
  let step_data := build_step_data st categories request in
  page ← attr page;
  session_obj ← attr (session_obj request);
  if negb (is_visible st page session_obj)
  then
    message ← call underscore "PAGE_NOT_AVAILABLE";
    mret (HttpResponseNotAllowed message)
  else
    code ← attr (LANGUAGE_CODE request);
    let context :=
      mkContext page step_data code session
        (negb (String.eqb (valid_for session) "latest"))
        (match lang with
         | Some c => existsb (String.eqb c) INCOMPLETE_TRANSLATIONS
         | None => false
         end) in
    let overwrite_status :=
      match headers request !! "accept" with
      | Some accept =>
          if str_contains "turbo" accept then overwrite_status else Some 200
      | None => Some 200
      end in
    mret (HttpResponse_ (render context request) overwrite_status).

Definition route_index (fuel : nat) (lang id : option string)
    : view HttpResponse :=
  request ← get_request;
  st ← get_db;
  let page_id := GET request !! "page" in
  page ←
    (if truthy_str page_id
     then
       page ← lift (objects_get
                      (List.filter
                         (fun p => (String.eqb (catalogue_id p)
                                      (default "" page_id))
                                   && negb (is_invalidated p))
                         (page_table st)));
       mret (Some page)
     else
       mret (first (List.filter (fun p => negb (is_invalidated p))
                      (page_table st))));
  page ← attr page;
  route ← lift (get_page_route fuel st page);
  let underscore := fst route in
  let pages := snd route in
  session ← get_session page;
  session ←
    (match id with
     | Some id => clone_selections id session
     | None => mret session
     end);
  request ← get_request;
  _ ← put_request (onboard_session session request);
  let code := if truthy_str lang
              then default "" lang else DEFAULT_LANGUAGE_CODE in
  request ← get_request;
  _ ← put_request (set_LANGUAGE_CODE code request);
  session ←
    (if negb (String.eqb (language_code session) code)
     then
       let session := with_language_code code session in
       _ ← Session_save session;
       request ← get_request;
       _ ← put_request (refresh_session_obj session request);
       mret session
     else mret session);
  st ← get_db;
  let '(pages, categories) :=
    get_categories_and_filtered_pages st pages session in
  let overwrite_status := Some 200 in
  let base_url :=
    "/" +:+ code +:+
    (if truthy_str id then "/" +:+ default "" id else "") in
  request ← get_request;
  if String.eqb (method request) "POST" then
    forwarded ← forward_helper id overwrite_status session base_url page;
    let '(overwrite_status, response) := forwarded in
    match response with
    | Some response =>
        if negb (truthy_int overwrite_status) then mret response
        else route_index_render underscore lang id page session pages
               categories overwrite_status base_url
    | None =>
        route_index_render underscore lang id page session pages
          categories overwrite_status base_url
    end
  else
    route_index_render underscore lang id page session pages
      categories overwrite_status base_url.

End Views.

(** * Vocabulary of the properties *)

(** ** Page chains *)

(** A well-formed chain: every page is the stored row for its key, the
    first page has no predecessor, the last one no successor, and
    neighbours point at each other. *)
Fixpoint linked (st : Store) (prev : option Page) (l : list Page) : Prop :=
  match l with
  | [] => True
  | p :: rest =>
      page_by_pk st (page_pk p) = Some p /\
      previous_page p = page_pk <$> prev /\
      next_page p = page_pk <$> head rest /\
      linked st (Some p) rest
  end.

Definition page_chain (st : Store) (l : list Page) : Prop :=
  linked st None l.

(** The page reached from [p] after [n] hops along [link]. *)
Fixpoint nth_link (link : Page -> option Z) (st : Store) (n : nat) (p : Page)
    : option Page :=
  match n with
  | O => Some p
  | S n' =>
      match link p with
      | None => None
      | Some k =>
          match page_by_pk st k with
          | Some q => nth_link link st n' q
          | None => None
          end
      end
  end.

(** [link] runs in a cycle through [p]. *)
Definition cycle_through (link : Page -> option Z) (st : Store) (p : Page)
    : Prop :=
  exists n, nth_link link st (S n) p = Some p.

(** [q] is the row stored under its own key. *)
Definition stored_page (st : Store) (q : Page) : Prop :=
  page_by_pk st (page_pk q) = Some q.

(** The page before the split point of a chain. *)
Definition before (prev : option Page) (pre : list Page) : option Page :=
  match last pre with
  | Some q => Some q
  | None => prev
  end.

(** ** Cloned selections *)

(** The row that a copy of [selection] into [session] stores. *)
Definition copy_row (session : Session) (selection : FacetteSelection)
    (st : Store) : FacetteSelection :=
  mkSelection (fresh_pk selection_pk (selection_table st))
    (session_pk session) (facette selection) (selection_data selection).

(** What the receiving session holds for a facette after the loop: what
    it held before, if anything; otherwise one copy of the first of the
    processed selections for that facette. *)
Definition held_after (session : Session)
    (selections : list FacetteSelection) (f : Z)
    (earlier later : list FacetteSelection) : Prop :=
  match earlier with
  | _ :: _ => later = earlier
  | [] =>
      match List.find (fun s => facette s =? f) selections with
      | Some s =>
          exists k,
            later = [mkSelection k (session_pk session) f (selection_data s)]
      | None => later = []
      end
  end.

(** The world that the copying branch of [clone_selections] leaves. *)
Definition cloned_world (old session : Session) (w : World) : World :=
  let st := copy_selections session
              (selections_of (db w) (session_pk old)) (db w) in
  mkWorld
    (set_session_table
       (save_row session_pk (with_origin old session) (session_table st)) st)
    (request w).

(** Two calls in a row leave the new session with exactly one
    selection for each selection of the old session, the second call
    changing nothing. *)
Definition cloned_once (clone : string -> Session -> view Session)
    (id : string) (sess : Session) (w : World) : Prop :=
  exists sess' w',
    clone id sess w = Returned (sess', w') /\
    clone id sess' w' = Returned (sess', w') /\
    forall old s,
      Session_by_result_id (db w) id = Some old ->
      In s (selections_of (db w) (session_pk old)) ->
      length (selections_for (db w') (session_pk sess) (facette s)) = 1%nat.

(** ** Navigation *)

(** The category, if any, that [get_categories_and_filtered_pages]
    appends for one page. *)
Definition category_of (st : Store) (p : Page) : list Category :=
  if 0 <? Z.of_nat (length (top_categories_of st p))
  then option_list (first (top_categories_of st p)) else [].

(** The step of one category, built with the given is-last flag. *)
Definition step_of {Step : Type}
    (to_step : Category -> WebHttpRequest -> option bool -> Step)
    (st : Store) (request : WebHttpRequest) (is_last : bool) (c : Category)
    : StepData Step :=
  mkStepData Step (icon c) (to_step c request (Some is_last))
    (map (fun child => to_step child request None) (children_of st c)).

(** ** Choosables *)

Definition choosables_by_pk (st : Store) (k : Z) : list Choosable :=
  List.filter (fun c => choosable_pk c =? k) (choosable_table st).

(** [n] calls of a view in a row, each on the world the previous one
    left. *)
Fixpoint calls {A} (n : nat) (call : view A) (w : World) : outcome World :=
  match n with
  | O => Returned w
  | S n' =>
      match call w with
      | Returned (_, w') => calls n' call w'
      | Raised e => Raised e
      | Diverged => Diverged
      end
  end.

(** * Sample data *)

(** ** The chain A -> B -> C and a ring of two pages *)

Definition page_A : Page := mkPage 1 "a" false true "/a" None (Some 2).
Definition page_B : Page := mkPage 2 "b" false true "/b" (Some 1) (Some 3).
Definition page_C : Page := mkPage 3 "c" false true "/c" (Some 2) None.

Definition abc_store : Store :=
  mkStore [page_A; page_B; page_C] [] [] [] [].

Definition ring_X : Page := mkPage 1 "x" false true "/x" (Some 2) (Some 2).
Definition ring_Y : Page := mkPage 2 "y" false true "/y" (Some 1) (Some 1).

Definition ring_store : Store := mkStore [ring_X; ring_Y] [] [] [] [].

(** ** Sample sessions *)

Definition sample_result_id (st : Store) : string :=
  string_of_list_ascii
    (repeat "r"%char (S (length (session_table st)))).

Definition session_1 : Session :=
  mkSession 1 "one" "2023" None "en" None None.
Definition session_2 : Session :=
  mkSession 2 "two" "latest" None "en" None None.
Definition session_3 : Session :=
  mkSession 3 "three" "latest" None "en" None None.
(** A session that was cloned from [session_3] before. *)
Definition session_2_of_3 : Session :=
  mkSession 2 "two" "latest" (Some 3) "en" None None.

Definition selection_x : FacetteSelection := mkSelection 1 1 7 "x".

Definition sample_store : Store :=
  mkStore [page_A; page_B; page_C] [session_1; session_2; session_3]
    [selection_x] [] [].

Definition relinked_store : Store :=
  mkStore [page_A; page_B; page_C] [session_1; session_2_of_3; session_3]
    [selection_x] [] [].

Definition sample_request (result : option string) : WebHttpRequest :=
  mkRequest (match result with
             | Some rid => {["result_id" := rid]}
             | None => ∅
             end)
    {["user-agent" := "lynx"]} ∅ "GET" "/" None false false None.

Definition welcome_page : Page := mkPage 4 "welcome" false false "/" None None.

Abbreviation sample_get_session :=
  (get_session sample_result_id "latest" "en").
Abbreviation sample_clone_selections :=
  (clone_selections sample_result_id "latest" "en").

(** ** A sample Choosable *)

(** [str.upper] on ASCII letters. *)
Definition ascii_upper (c : ascii) : ascii :=
  let n := nat_of_ascii c in
  if ((97 <=? n) && (n <=? 122))%nat then ascii_of_nat (n - 32) else c.

Fixpoint upper (s : string) : string :=
  match s with
  | EmptyString => EmptyString
  | String c rest => String (ascii_upper c) (upper rest)
  end.

Definition debian : Choosable :=
  mkChoosable 5 3 {["WEBSITE" := mkMeta "https://www.debian.org"]}.

Definition choosable_store : Store := mkStore [] [] [] [] [debian].

(** ** A questionnaire without a visible page *)

Definition hidden (st : Store) (p : Page) (s : Session) : bool := false.
Definition no_substitute (p : Page) (s : Session) : view (option Page) :=
  mret None.
Definition plain_step (c : Category) (r : WebHttpRequest) (last : option bool)
    : unit := tt.
Definition no_forward (id : option string) (status : option Z) (s : Session)
    (base_url : string) (p : Page) : view (option Z * option HttpResponse) :=
  mret (status, None).
Definition blank (c : Context unit) (r : WebHttpRequest) : string := "".

(** Requests away from the start page, and further stores. *)
Definition deep_request : WebHttpRequest :=
  mkRequest ∅ {["user-agent" := "lynx"]} ∅ "GET" "/en" None false false None.
Definition page_request (page_id : string) : WebHttpRequest :=
  mkRequest ∅ {["user-agent" := "lynx"]} {["page" := page_id]} "GET"
    ("/en?page=" +:+ page_id) None false false None.
Definition onboarded_request : WebHttpRequest :=
  mkRequest {["result_id" := "two"]} {["user-agent" := "lynx"]} ∅ "POST"
    "/en" (Some session_2) false false (Some "en").
Definition empty_store : Store := mkStore [] [] [] [] [].
Definition welcome_store : Store := mkStore [welcome_page] [] [] [] [].
Definition twin_store : Store :=
  mkStore [page_A; mkPage 9 "a" false true "/a2" None None] [] [] [] [].
Definition visible (st : Store) (p : Page) (s : Session) : bool := true.
Definition substitute_C (p : Page) (s : Session) : view (option Page) :=
  mret (Some page_C).

Definition post_request : WebHttpRequest :=
  mkRequest ∅ {["user-agent" := "lynx"]} ∅ "POST" "/" None false false None.
Definition forward_moved (id : option string) (status : option Z)
    (s : Session) (base_url : string) (p : Page)
    : view (option Z * option HttpResponse) :=
  mret (None, Some (HttpResponseRedirect (base_url +:+ "/b"))).

(** Categories: two top-level ones for page A, a child for page B. *)
Definition category_a : Category := mkCategory 1 1 None "a".
Definition nav_store : Store :=
  mkStore [page_A; page_B; page_C] [] []
    [category_a; mkCategory 2 1 None "a2"; mkCategory 3 2 (Some 1) "b"] [].
Definition only_B (st : Store) (p : Page) (s : Session) : bool :=
  page_pk p =? 2.

Abbreviation sample_route_index :=
  (route_index sample_result_id "latest" "en" hidden no_substitute unit
     plain_step "en" [] no_forward blank).

(** * Properties of the page chain *)

Module Chain.

Lemma follow_stored st q :
  page_by_pk st (page_pk q) = Some q ->
  follow st (Some (page_pk q)) = Returned (Some q).
Proof. intros H. unfold follow. now rewrite H. Qed.

Lemma follow_fmap st (o : option Page) :
  (forall q, o = Some q -> page_by_pk st (page_pk q) = Some q) ->
  follow st (page_pk <$> o) = Returned o.
Proof.
  destruct o as [q|]; simpl; intros H; [|reflexivity].
  apply follow_stored. now apply H.
Qed.

Lemma linked_head_stored st prev l q :
  linked st prev l -> head l = Some q -> page_by_pk st (page_pk q) = Some q.
Proof.
  destruct l as [|p rest]; simpl; [discriminate|].
  intros (Hs & _) [= <-]. exact Hs.
Qed.

Lemma before_cons prev p pre : before prev (p :: pre) = before (Some p) pre.
Proof.
  unfold before. rewrite last_cons. now destruct (last pre).
Qed.

Lemma linked_app st prev pre l :
  linked st prev (pre ++ l) ->
  linked st (before prev pre) l /\
  (forall q, last pre = Some q -> page_by_pk st (page_pk q) = Some q).
Proof.
  revert prev. induction pre as [|p pre IH]; intros prev H.
  - split; [exact H | discriminate].
  - simpl in H. destruct H as (Hs & _ & _ & Hrest).
    destruct (IH _ Hrest) as [Hl Hlast]. split.
    + now rewrite before_cons.
    + intros q Hq. destruct pre as [|p' pre'].
      * simpl in Hq. now injection Hq as <-.
      * apply Hlast. exact Hq.
Qed.

Lemma linked_previous st prev pre x rest :
  linked st prev (pre ++ x :: rest) ->
  previous_page x = page_pk <$> before prev pre.
Proof.
  intros H. apply linked_app in H as [H _]. simpl in H. tauto.
Qed.

(** The backward walk collects the pages before the start, in chain order. *)
Lemma walk_previous_chain st pre :
  forall x rest fuel acc,
    linked st None (pre ++ x :: rest) ->
    (length pre <= fuel)%nat ->
    walk_previous fuel st (last pre) acc = Returned (pre ++ acc).
Proof.
  induction pre as [|q pre IH] using rev_ind; intros x rest fuel acc H Hf.
  - simpl. now destruct fuel.
  - rewrite last_snoc. rewrite length_app in Hf. simpl in Hf.
    destruct fuel as [|fuel]; [lia|]. simpl.
    rewrite <- app_assoc in H. simpl in H.
    pose proof (linked_previous _ _ _ _ _ H) as Hprev.
    pose proof (linked_app _ _ _ _ H) as [_ Hstored].
    assert (Hfollow : follow st (previous_page q) = Returned (last pre)).
    { rewrite Hprev. unfold before.
      destruct (last pre) as [r|] eqn:E; [|reflexivity].
      apply follow_stored. now apply Hstored. }
    rewrite Hfollow. simpl.
    rewrite (IH q (x :: rest) fuel (q :: acc) H ltac:(lia)).
    now rewrite <- app_assoc.
Qed.

(** The forward walk appends the pages after the start and leaves the loop
    with its variable empty. *)
Lemma walk_next_chain st post :
  forall fuel prev acc,
    linked st prev post ->
    (length post <= fuel)%nat ->
    walk_next fuel st (head post) acc = Returned (None, acc ++ post).
Proof.
  induction post as [|q post IH]; intros fuel prev acc H Hf.
  - simpl. rewrite app_nil_r. now destruct fuel.
  - simpl in Hf. destruct fuel as [|fuel]; [lia|].
    simpl in H. destruct H as (_ & _ & Hnext & Hrest). simpl.
    assert (Hfollow : follow st (next_page q) = Returned (head post)).
    { rewrite Hnext. apply follow_fmap. intros r Hr.
      eapply linked_head_stored; eauto. }
    rewrite Hfollow. simpl.
    rewrite (IH fuel (Some q) (acc ++ [q]) Hrest ltac:(lia)).
    now rewrite <- app_assoc.
Qed.

(** Whenever the forward walk returns, its loop variable is empty. *)
Lemma walk_next_cursor st :
  forall fuel next acc cursor pages,
    walk_next fuel st next acc = Returned (cursor, pages) -> cursor = None.
Proof.
  induction fuel as [|fuel IH]; intros next acc cursor pages H.
  - destruct next; simpl in H; congruence.
  - destruct next as [p|]; simpl in H; [|congruence].
    destruct (follow st (next_page p)) as [next'| |]; simpl in H;
      try discriminate.
    eapply IH; eauto.
Qed.

(** X1: so [get_page_route] never returns a next page: whenever it
    returns, the first component of the result is [None]. *)
Lemma get_page_route_cursor st fuel page cursor pages :
  get_page_route fuel st page = Returned (cursor, pages) -> cursor = None.
Proof.
  unfold get_page_route. intros H.
  destruct (follow st (previous_page page)) as [prev| |]; simpl in H;
    try discriminate.
  destruct (walk_previous fuel st prev []) as [before_pages| |]; simpl in H;
    try discriminate.
  destruct (follow st (next_page page)) as [next| |]; simpl in H;
    try discriminate.
  eapply walk_next_cursor; eauto.
Qed.

Lemma get_page_route_split st pre x post fuel :
  page_chain st (pre ++ x :: post) ->
  (length (pre ++ x :: post) <= fuel)%nat ->
  get_page_route fuel st x = Returned (None, pre ++ x :: post).
Proof.
  intros H Hf. rewrite length_app in Hf. simpl in Hf.
  unfold get_page_route, page_chain in *.
  pose proof (linked_previous _ _ _ _ _ H) as Hprev.
  pose proof (linked_app _ _ _ _ H) as [Hx Hstored].
  assert (Hfollow : follow st (previous_page x) = Returned (last pre)).
  { rewrite Hprev. unfold before.
    destruct (last pre) as [r|] eqn:E; [|reflexivity].
    apply follow_stored. now apply Hstored. }
  rewrite Hfollow. simpl.
  rewrite (walk_previous_chain st pre x post fuel [] H ltac:(lia)). simpl.
  rewrite app_nil_r.
  simpl in Hx. destruct Hx as (_ & _ & Hnext & Hrest).
  assert (Hfollow' : follow st (next_page x) = Returned (head post)).
  { rewrite Hnext. apply follow_fmap. intros r Hr.
    eapply linked_head_stored; eauto. }
  rewrite Hfollow'. simpl.
  rewrite (walk_next_chain st post fuel (Some x) (pre ++ [x]) Hrest ltac:(lia)).
  now rewrite <- app_assoc.
Qed.

Lemma stored_inj st p q :
  page_by_pk st (page_pk p) = Some p ->
  page_by_pk st (page_pk q) = Some q ->
  page_pk p = page_pk q -> p = q.
Proof. intros Hp Hq E. rewrite E in Hp. congruence. Qed.

(** No page occurs twice in a well-formed chain: the second occurrence
    would have to be followed by the same pages as the first, for ever. *)
Lemma linked_no_repeat st b :
  forall a p prev, linked st prev (p :: a ++ p :: b) -> False.
Proof.
  induction b as [|r b IH]; intros a p prev H.
  - destruct H as (_ & _ & Hnext & Hrest).
    apply linked_app in Hrest as [Hp _]. simpl in Hp.
    destruct Hp as (_ & _ & Hnone & _). rewrite Hnone in Hnext.
    destruct a; discriminate.
  - destruct H as (Hsp & _ & Hnext & Hrest).
    pose proof (linked_app _ _ _ _ Hrest) as [Hp _]. simpl in Hp.
    destruct Hp as (_ & _ & Hnext' & Hsr & _).
    rewrite Hnext' in Hnext. destruct a as [|r' a].
    + simpl in Hnext. injection Hnext as E.
      assert (r = p) by (apply (stored_inj st); auto). subst r.
      apply (IH [] p (Some p)). exact Hrest.
    + simpl in Hnext. injection Hnext as E.
      assert (Hsr' : page_by_pk st (page_pk r') = Some r')
        by (simpl in Hrest; tauto).
      assert (r = r') by (apply (stored_inj st); auto). subst r'.
      apply (IH (a ++ [p]) r (Some p)).
      rewrite <- app_assoc. exact Hrest.
Qed.

Lemma linked_NoDup st l : forall prev, linked st prev l -> NoDup l.
Proof.
  induction l as [|p rest IH]; intros prev H; [constructor|].
  apply NoDup_cons. split.
  - intros Hin. apply list_elem_of_split in Hin as (a & b & ->).
    eapply linked_no_repeat; eauto.
  - destruct H as (_ & _ & _ & Hrest). eauto.
Qed.

(** ** Cycles *)

Lemma nth_link_add link st a :
  forall b p,
    nth_link link st (a + b) p =
    match nth_link link st a p with
    | Some q => nth_link link st b q
    | None => None
    end.
Proof.
  induction a as [|a IH]; intros b p; [reflexivity|].
  simpl. destruct (link p) as [k|]; [|reflexivity].
  destruct (page_by_pk st k) as [q|]; [apply IH | reflexivity].
Qed.

Lemma cycle_laps link st p n :
  nth_link link st (S n) p = Some p ->
  forall k, nth_link link st (k * S n) p = Some p.
Proof.
  intros H k. induction k as [|k IH]; [reflexivity|].
  change (S k * S n)%nat with (S n + k * S n)%nat.
  rewrite nth_link_add, H. exact IH.
Qed.

(** From a page on a cycle every number of hops lands on a page. *)
Lemma cycle_unbounded link st p :
  cycle_through link st p -> forall m, is_Some (nth_link link st m p).
Proof.
  intros [n H] m.
  pose proof (cycle_laps link st p n H (S m)) as Hk.
  replace (S m * S n)%nat with (m + (S m * S n - m))%nat in Hk by nia.
  rewrite nth_link_add in Hk.
  destruct (nth_link link st m p); [eauto | discriminate].
Qed.

Lemma walk_previous_unbounded st :
  forall fuel p acc,
    (forall m, is_Some (nth_link previous_page st m p)) ->
    walk_previous fuel st (Some p) acc = Diverged.
Proof.
  induction fuel as [|fuel IH]; intros p acc H; [reflexivity|].
  simpl. pose proof (H 1%nat) as [q Hq]. simpl in Hq.
  destruct (previous_page p) as [k|] eqn:Ek; [|discriminate].
  simpl. destruct (page_by_pk st k) as [q'|] eqn:Eq; [|discriminate].
  simpl. apply IH. intros m. specialize (H (S m)). simpl in H.
  now rewrite Ek, Eq in H.
Qed.

Lemma walk_next_unbounded st :
  forall fuel p acc r,
    (forall m, is_Some (nth_link next_page st m p)) ->
    walk_next fuel st (Some p) acc <> Returned r.
Proof.
  induction fuel as [|fuel IH]; intros p acc r H; [discriminate|].
  simpl. pose proof (H 1%nat) as [q Hq]. simpl in Hq.
  destruct (next_page p) as [k|] eqn:Ek; [|discriminate].
  simpl. destruct (page_by_pk st k) as [q'|] eqn:Eq; [|discriminate].
  simpl. apply IH. intros m. specialize (H (S m)). simpl in H.
  now rewrite Ek, Eq in H.
Qed.

Lemma previous_cycle_diverges st p fuel :
  cycle_through previous_page st p -> get_page_route fuel st p = Diverged.
Proof.
  intros Hc. pose proof (cycle_unbounded _ _ _ Hc) as H.
  unfold get_page_route.
  pose proof (H 1%nat) as [q Hq]. simpl in Hq.
  destruct (previous_page p) as [k|] eqn:Ek; [|discriminate].
  simpl. destruct (page_by_pk st k) as [q'|] eqn:Eq; [|discriminate].
  simpl. rewrite walk_previous_unbounded; [reflexivity|].
  intros m. specialize (H (S m)). simpl in H. now rewrite Ek, Eq in H.
Qed.

Lemma next_cycle_never_returns st p fuel r :
  cycle_through next_page st p -> get_page_route fuel st p <> Returned r.
Proof.
  intros Hc. pose proof (cycle_unbounded _ _ _ Hc) as H.
  unfold get_page_route.
  destruct (follow st (previous_page p)) as [prev| |]; simpl; try discriminate.
  destruct (walk_previous fuel st prev []) as [pages| |]; simpl;
    try discriminate.
  pose proof (H 1%nat) as [q Hq]. simpl in Hq.
  destruct (next_page p) as [k|] eqn:Ek; [|discriminate].
  simpl. destruct (page_by_pk st k) as [q'|] eqn:Eq; [|discriminate].
  simpl. apply walk_next_unbounded.
  intros m. specialize (H (S m)). simpl in H. now rewrite Ek, Eq in H.
Qed.

End Chain.

(** C1 (the code does not do this): [get_page_route] is documented to
    return the page that follows the starting page.  On the chain
    A -> B -> C started at B the page following B is C, but the first
    component of the result is [None]: the function returns the variable of
    its second loop, which is empty whenever that loop is left. *)
Theorem get_page_route_loses_next_page :
  follow abc_store (next_page page_B) = Returned (Some page_C) /\
  get_page_route 3 abc_store page_B
    = Returned (None, [page_A; page_B; page_C]).
Proof. split; reflexivity. Qed.

(** C2: on a well-formed (acyclic) chain, started at any page of it,
    [get_page_route] returns, given fuel for the length of the chain, the
    list of all pages of the chain, each exactly once, in link order, with
    the starting page at its position in the chain. *)
Theorem get_page_route_pages st l i p fuel :
  page_chain st l ->
  l !! i = Some p ->
  (length l <= fuel)%nat ->
  exists next pages,
    get_page_route fuel st p = Returned (next, pages) /\
    pages = l /\ NoDup pages /\ page_chain st pages /\ pages !! i = Some p.
Proof.
  intros Hc Hi Hf. exists None, l.
  pose proof (take_drop_middle l i p Hi) as Hsplit.
  repeat split; auto.
  - rewrite <- Hsplit in Hc, Hf |- *.
    now apply Chain.get_page_route_split.
  - eapply Chain.linked_NoDup; eauto.
Qed.

Lemma get_page_route_pages_witness :
  exists next pages,
    get_page_route 3 abc_store page_B = Returned (next, pages) /\
    pages = [page_A; page_B; page_C] /\ NoDup pages /\
    page_chain abc_store pages /\ pages !! 1%nat = Some page_B.
Proof.
  apply (get_page_route_pages abc_store [page_A; page_B; page_C] 1 page_B 3).
  - vm_compute. repeat split; reflexivity.
  - reflexivity.
  - simpl. lia.
Defined.

(** C3, as the code has it: [get_page_route] comes back on every
    well-formed chain, but it has no cycle guard.  When the [previous_page]
    links run in a cycle through the starting page the traversal never
    comes back, whatever the fuel; when the [next_page] links do, it never
    returns a result. *)
Theorem get_page_route_termination st p :
  (forall l fuel,
      page_chain st l -> p ∈ l -> (length l <= fuel)%nat ->
      exists r, get_page_route fuel st p = Returned r) /\
  (cycle_through previous_page st p ->
   forall fuel, get_page_route fuel st p = Diverged) /\
  (cycle_through next_page st p ->
   forall fuel r, get_page_route fuel st p <> Returned r).
Proof.
  split; [|split].
  - intros l fuel Hc Hin Hf.
    apply list_elem_of_split in Hin as (pre & post & ->).
    exists (None, pre ++ p :: post).
    apply Chain.get_page_route_split; assumption.
  - intros Hc fuel. now apply Chain.previous_cycle_diverges.
  - intros Hc fuel r. now apply Chain.next_cycle_never_returns.
Qed.

Lemma get_page_route_termination_witness :
  (exists r, get_page_route 3 abc_store page_B = Returned r) /\
  get_page_route 7 ring_store ring_X = Diverged /\
  get_page_route 7 ring_store ring_Y <> Returned (None, [ring_X; ring_Y]).
Proof.
  split; [|split].
  - apply (proj1 (get_page_route_termination abc_store page_B)
             [page_A; page_B; page_C] 3%nat).
    + vm_compute. repeat split; reflexivity.
    + apply list_elem_of_In. simpl. auto.
    + simpl. lia.
  - apply (proj1 (proj2 (get_page_route_termination ring_store ring_X))).
    exists 1%nat. reflexivity.
  - apply (proj2 (proj2 (get_page_route_termination ring_store ring_Y))).
    exists 1%nat. reflexivity.
Defined.

(** C3 as stated fails: on the ring X <-> Y no amount of fuel lets
    [get_page_route] come back, neither with a result nor with an error. *)
Lemma get_page_route_ring_hangs :
  ~ (exists fuel, get_page_route fuel ring_store ring_X <> Diverged).
Proof.
  intros [fuel H]. apply H. apply Chain.previous_cycle_diverges.
  exists 1%nat. reflexivity.
Qed.

(** * Properties of the tables *)

Module Rows.

Section Keyed.
Context {A : Type} (pk : A -> Z).

Lemma fresh_pk_above rows r : In r rows -> pk r < fresh_pk pk rows.
Proof.
  unfold fresh_pk. induction rows as [|x rows IH]; simpl; [tauto|].
  intros [-> | Hin]; [lia|]. specialize (IH Hin). lia.
Qed.

Lemma fresh_pk_unused rows :
  existsb (fun r => pk r =? fresh_pk pk rows) rows = false.
Proof.
  apply not_true_is_false. intros H.
  apply existsb_exists in H as (r & Hin & E).
  apply Z.eqb_eq in E. pose proof (fresh_pk_above rows r Hin). lia.
Qed.

Lemma fresh_pk_not_in rows : ~ In (fresh_pk pk rows) (map pk rows).
Proof.
  intros H. apply in_map_iff in H as (r & E & Hin).
  pose proof (fresh_pk_above rows r Hin). lia.
Qed.

(** Saving a row under a fresh key appends it. *)
Lemma save_row_fresh row rows :
  pk row = fresh_pk pk rows -> save_row pk row rows = rows ++ [row].
Proof.
  intros E. unfold save_row. now rewrite E, fresh_pk_unused.
Qed.

(** After a save every row under the saved key is the saved row. *)
Lemma save_row_key row rows r :
  In r (save_row pk row rows) -> pk r = pk row -> r = row.
Proof.
  unfold save_row. destruct (existsb _ rows) eqn:Ex.
  - intros Hin E. apply in_map_iff in Hin as (x & Hx & _).
    destruct (pk x =? pk row) eqn:Ek; [now subst|].
    subst r. apply Z.eqb_neq in Ek. contradiction.
  - intros Hin E. apply in_app_iff in Hin as [Hin | [<- | []]]; [|reflexivity].
    exfalso. assert (existsb (fun r => pk r =? pk row) rows = true);
      [|congruence].
    apply existsb_exists. exists r. split; [exact Hin | now apply Z.eqb_eq].
Qed.

Lemma save_row_stored row rows : In row (save_row pk row rows).
Proof.
  unfold save_row. destruct (existsb _ rows) eqn:Ex.
  - apply existsb_exists in Ex as (x & Hin & E).
    apply in_map_iff. exists x. now rewrite E.
  - apply in_app_iff. right. now left.
Qed.

(** A save keeps the first row that satisfies [sel] under the same key,
    provided [sel] does not tell the saved row from the rows it replaces. *)
Lemma save_row_first (sel : A -> bool) row rows r :
  (forall x, In x rows -> pk x = pk row -> sel x = sel row) ->
  first (List.filter sel rows) = Some r ->
  exists r', first (List.filter sel (save_row pk row rows)) = Some r' /\
             pk r' = pk r /\ (pk r <> pk row -> r' = r).
Proof.
  intros Hsel Hfirst. unfold save_row. destruct (existsb _ rows) eqn:Ex.
  - clear Ex. induction rows as [|x rows IH]; [discriminate|].
    simpl in *. destruct (pk x =? pk row) eqn:Ek.
    + apply Z.eqb_eq in Ek.
      rewrite <- (Hsel x (or_introl eq_refl) Ek).
      destruct (sel x).
      * injection Hfirst as <-. exists row. simpl. repeat split; auto.
        intros Hne. congruence.
      * apply IH; auto.
    + destruct (sel x).
      * injection Hfirst as <-. exists x. simpl. auto.
      * apply IH; auto.
  - exists r. rewrite List.filter_app.
    destruct (List.filter sel rows) as [|y ys]; [discriminate|].
    simpl in *. auto.
Qed.

End Keyed.

End Rows.

(** * Properties of the copy loop *)

Module Copy.

Lemma copy_selection_table session selection st :
  selection_table (copy_selection session selection st)
  = selection_table st ++ [copy_row session selection st].
Proof.
  unfold copy_selection. simpl. now apply Rows.save_row_fresh.
Qed.

Lemma copy_selections_session_table session selections :
  forall st,
    session_table (copy_selections session selections st) = session_table st.
Proof.
  induction selections as [|s rest IH]; intros st; [reflexivity|].
  simpl. rewrite IH. now destruct (_ =? 0).
Qed.

Lemma copy_selections_page_table session selections :
  forall st,
    page_table (copy_selections session selections st) = page_table st.
Proof.
  induction selections as [|s rest IH]; intros st; [reflexivity|].
  simpl. rewrite IH. now destruct (_ =? 0).
Qed.

(** Rows are only ever added, and only to the receiving session. *)
Lemma copy_selections_appends session selections :
  forall st, exists added,
    selection_table (copy_selections session selections st)
    = selection_table st ++ added /\
    Forall (fun x => selection_session x = session_pk session) added.
Proof.
  induction selections as [|s rest IH]; intros st.
  - exists []. simpl. now rewrite app_nil_r.
  - simpl. destruct (_ =? 0).
    + destruct (IH (copy_selection session s st)) as (added & E & Hall).
      exists (copy_row session s st :: added). split.
      * rewrite E, copy_selection_table, <- app_assoc. reflexivity.
      * constructor; [reflexivity | exact Hall].
    + apply IH.
Qed.

Lemma copy_selections_others session selections st k :
  k <> session_pk session ->
  selections_of (copy_selections session selections st) k
  = selections_of st k.
Proof.
  intros Hk.
  destruct (copy_selections_appends session selections st)
    as (added & E & Hall).
  unfold selections_of. rewrite E, List.filter_app.
  rewrite <- (app_nil_r (List.filter _ (selection_table st))) at 2.
  f_equal. clear E. induction Hall as [|x added Hx _ IH]; [reflexivity|].
  simpl. destruct (selection_session x =? k) eqn:Ek; [|exact IH].
  apply Z.eqb_eq in Ek. congruence.
Qed.

Lemma selections_for_copy session s st f :
  selections_for (copy_selection session s st) (session_pk session) f
  = selections_for st (session_pk session) f
    ++ (if facette s =? f then [copy_row session s st] else []).
Proof.
  unfold selections_for. rewrite copy_selection_table, List.filter_app.
  f_equal. simpl. rewrite Z.eqb_refl. simpl. now destruct (facette s =? f).
Qed.

Lemma copy_selections_held session selections f :
  forall st,
    held_after session selections f
      (selections_for st (session_pk session) f)
      (selections_for (copy_selections session selections st)
         (session_pk session) f).
Proof.
  induction selections as [|s rest IH]; intros st.
  - unfold held_after. simpl. now destruct (selections_for st _ f).
  - simpl.
    destruct (Z.of_nat (length (selections_for st (session_pk session)
                                  (facette s))) =? 0) eqn:Ec.
    + apply Z.eqb_eq in Ec.
      assert (Hnone : selections_for st (session_pk session) (facette s) = [])
        by (destruct (selections_for st _ _); [reflexivity | simpl in Ec; lia]).
      specialize (IH (copy_selection session s st)).
      rewrite selections_for_copy in IH. unfold held_after in *. simpl.
      destruct (facette s =? f) eqn:Ef.
      * apply Z.eqb_eq in Ef. subst f. rewrite Hnone in *. simpl in IH.
        rewrite IH. now eexists.
      * now rewrite app_nil_r in IH.
    + apply Z.eqb_neq in Ec. specialize (IH st).
      unfold held_after in *. simpl.
      destruct (facette s =? f) eqn:Ef; [|exact IH].
      apply Z.eqb_eq in Ef. subst f.
      destruct (selections_for st (session_pk session) (facette s));
        [simpl in Ec; lia | exact IH].
Qed.

(** The loop never gives the receiving session a second selection for a
    facette, and gives it one for every facette of the processed list. *)
Lemma held_after_length session selections f earlier later :
  held_after session selections f earlier later ->
  (length later <= Nat.max 1 (length earlier))%nat /\
  (forall s, In s selections -> facette s = f ->
             (1 <= length later)%nat).
Proof.
  unfold held_after. destruct earlier as [|b earlier].
  - destruct (List.find _ selections) as [s|] eqn:Hf.
    + intros [k ->]. simpl. split; [lia | intros; lia].
    + intros ->. simpl. split; [lia|]. intros s Hin E. exfalso.
      eapply (find_none _ _ Hf) in Hin. apply Z.eqb_neq in Hin. congruence.
  - intros ->. simpl. split; [lia | intros; lia].
Qed.

End Copy.

(** * Properties of the session functions *)

(** Runs the monadic plumbing of a view function on the current world. *)
Ltac run :=
  repeat progress
    (unfold mbind, mret, view_bind, view_ret, outcome_bind, outcome_ret,
       get_db, get_request, put_db, put_request, raise, lift, attr,
       Session_save, Choosable_save;
     cbn beta iota delta [db request]).

(** Unfolding of one view function, whatever the section calls it. *)
Ltac enter_get_fresh_session := unfold get_fresh_session.
Ltac enter_get_session := unfold get_session.
Ltac enter_clone_selections := unfold clone_selections.
Ltac enter_route_outgoing := unfold route_outgoing.
Ltac enter_route_index_render := unfold route_index_render.
Ltac enter_route_index := unfold route_index.

Section SessionProperties.

Variable new_result_id : Store -> string.
Variable default_valid_for : string.
Variable default_session_language : string.

Local Abbreviation Session_new :=
  (Session_new new_result_id default_valid_for default_session_language).
Local Abbreviation get_fresh_session :=
  (get_fresh_session new_result_id default_valid_for default_session_language).
Local Abbreviation get_session :=
  (get_session new_result_id default_valid_for default_session_language).
Local Abbreviation clone_selections :=
  (clone_selections new_result_id default_valid_for default_session_language).

Lemma save_new_session st ua origin :
  save_row session_pk (Session_new st ua origin) (session_table st)
  = session_table st ++ [Session_new st ua origin].
Proof. now apply Rows.save_row_fresh. Qed.

Lemma get_fresh_session_run w :
  let created := Session_new (db w) (headers (request w) !! "user-agent") None in
  get_fresh_session w
  = Returned
      (with_referrer (headers (request w) !! "referrer") created,
       mkWorld (set_session_table (session_table (db w) ++ [created]) (db w))
         (request w)).
Proof.
  enter_get_fresh_session. run. now rewrite save_new_session.
Qed.

(** X4: a stored session that is not valid for "latest" is not reused:
    [get_session] returns a fresh session and records its [result_id]. *)
Lemma get_session_stale page w rid found :
  require_session page = true ->
  session (request w) !! "result_id" = Some rid ->
  Session_by_result_id (db w) rid = Some found ->
  valid_for found <> "latest" ->
  exists created w',
    get_fresh_session w = Returned (created, w') /\
    get_session page w
    = Returned (created,
                mkWorld (db w')
                  (set_session_item "result_id" (result_id created)
                     (request w'))) /\
    session (set_session_item "result_id" (result_id created) (request w'))
      !! "result_id" = Some (result_id created).
Proof.
  intros Hreq Hrid Hfound Hstale.
  eexists _, _. split; [apply get_fresh_session_run|]. split.
  - enter_get_session. run. rewrite Hreq, Hrid. run.
    rewrite Hfound. run.
    apply String.eqb_neq in Hstale. rewrite Hstale. simpl. run.
    now rewrite save_new_session.
  - simpl. apply lookup_insert_eq.
Qed.

(** X5: a stored session valid for "latest" is reused; nothing is
    created. *)
Lemma get_session_latest page w rid found :
  require_session page = true ->
  session (request w) !! "result_id" = Some rid ->
  Session_by_result_id (db w) rid = Some found ->
  valid_for found = "latest" ->
  get_session page w
  = Returned (found,
              mkWorld (db w)
                (set_session_item "result_id" (result_id found) (request w))) /\
  session (set_session_item "result_id" (result_id found) (request w))
    !! "result_id" = Some (result_id found).
Proof.
  intros Hreq Hrid Hfound Hlatest. split.
  - enter_get_session. run. rewrite Hreq, Hrid. run.
    rewrite Hfound. run. rewrite Hlatest. reflexivity.
  - simpl. apply lookup_insert_eq.
Qed.

(** C7 (the code does not do this): when the visitor context carries an
    identifier that matches no stored session, [get_session] does not fall
    back to a fresh session; reading [valid_for] of the missing session
    raises [AttributeError]. *)
Theorem get_session_unknown_identifier page w rid :
  require_session page = true ->
  session (request w) !! "result_id" = Some rid ->
  Session_by_result_id (db w) rid = None ->
  get_session page w = Raised AttributeError.
Proof.
  intros Hreq Hrid Hnone.
  enter_get_session. run. rewrite Hreq, Hrid. run.
  now rewrite Hnone.
Qed.

(** C10 (the code does not do this): for a page that does not require a
    session, [get_session] leaves [session] empty and then reads
    [session.result_id]: it raises [AttributeError] instead of
    completing. *)
Theorem get_session_not_required page w :
  require_session page = false ->
  get_session page w = Raised AttributeError.
Proof.
  intros Hreq. enter_get_session. run. now rewrite Hreq.
Qed.

End SessionProperties.

Section CloneProperties.

Variable new_result_id : Store -> string.
Variable default_valid_for : string.
Variable default_session_language : string.

Local Abbreviation Session_new :=
  (Session_new new_result_id default_valid_for default_session_language).
Local Abbreviation clone_selections :=
  (clone_selections new_result_id default_valid_for default_session_language).

Lemma clone_selections_copying id sess w old :
  Session_by_result_id (db w) id = Some old ->
  session_origin sess = None ->
  clone_selections id sess w
  = Returned (with_origin old sess, cloned_world old sess w).
Proof.
  intros Hold Horigin. enter_clone_selections. run.
  rewrite Hold, Horigin. run. reflexivity.
Qed.

Lemma clone_selections_linked id sess w old :
  Session_by_result_id (db w) id = Some old ->
  session_origin sess = Some (session_pk old) ->
  clone_selections id sess w = Returned (sess, w).
Proof.
  intros Hold Horigin. enter_clone_selections. run.
  rewrite Hold, Horigin, Z.eqb_refl. simpl. now destruct w.
Qed.


(** C6: for an existing old session and a session without origin,
    [clone_selections] gives the session, for every facette it had no
    selection for, one copy of the old session's (first) selection for that
    facette, and leaves what it already held; so it never comes to hold a
    second selection for a facette.  Other sessions keep their selections.
    Afterwards the session, in memory and as stored, has the old session's
    [valid_for] and the old session as [session_origin]. *)
Theorem clone_selections_copies id sess w old :
  Session_by_result_id (db w) id = Some old ->
  session_origin sess = None ->
  exists sess' w',
    clone_selections id sess w = Returned (sess', w') /\
    request w' = request w /\
    (forall f,
        held_after sess (selections_of (db w) (session_pk old)) f
          (selections_for (db w) (session_pk sess) f)
          (selections_for (db w') (session_pk sess) f)) /\
    ((forall f, (length (selections_for (db w) (session_pk sess) f)
                 <= 1)%nat) ->
     forall f, (length (selections_for (db w') (session_pk sess) f)
                <= 1)%nat) /\
    (forall k, k <> session_pk sess ->
               selections_of (db w') k = selections_of (db w) k) /\
    valid_for sess' = valid_for old /\
    session_origin sess' = Some (session_pk old) /\
    In sess' (session_table (db w')) /\
    (forall r, In r (session_table (db w')) ->
               session_pk r = session_pk sess -> r = sess').
Proof.
  intros Hold Horigin.
  exists (with_origin old sess), (cloned_world old sess w).
  split; [now apply clone_selections_copying|].
  assert (Hheld : forall f,
             held_after sess (selections_of (db w) (session_pk old)) f
               (selections_for (db w) (session_pk sess) f)
               (selections_for (db (cloned_world old sess w))
                  (session_pk sess) f)).
  { intros f. apply Copy.copy_selections_held. }
  repeat split; auto.
  - intros Hone f. specialize (Hone f).
    destruct (Copy.held_after_length _ _ _ _ _ (Hheld f)) as [Hle _]. lia.
  - intros k Hk. now apply Copy.copy_selections_others.
  - simpl. apply Rows.save_row_stored.
  - intros r Hin Hpk. simpl in Hin.
    eapply Rows.save_row_key; eauto.
Qed.

(** C4, as the code has it: for an existing old session and a session
    without origin whose stored row carries the same [result_id], the
    second of two calls in a row changes nothing, and after them the
    session holds exactly one selection for each facette selected in the
    old session, provided it held at most one before. *)
Theorem clone_selections_twice id sess w old :
  Session_by_result_id (db w) id = Some old ->
  session_origin sess = None ->
  (forall r, In r (session_table (db w)) ->
             session_pk r = session_pk sess ->
             result_id r = result_id sess) ->
  exists sess' w',
    clone_selections id sess w = Returned (sess', w') /\
    clone_selections id sess' w' = Returned (sess', w') /\
    forall s,
      In s (selections_of (db w) (session_pk old)) ->
      (length (selections_for (db w) (session_pk sess) (facette s))
       <= 1)%nat ->
      length (selections_for (db w') (session_pk sess) (facette s))
      = 1%nat.
Proof.
  intros Hold Horigin Hsync.
  exists (with_origin old sess), (cloned_world old sess w).
  split; [now apply clone_selections_copying|]. split.
  - destruct (Rows.save_row_first session_pk
                (fun s => String.eqb (result_id s) id)
                (with_origin old sess) (session_table (db w)) old)
      as (old' & Hold' & Hpk & _).
    + intros x Hin Hx. simpl in *. now rewrite (Hsync x Hin Hx).
    + exact Hold.
    + apply clone_selections_linked with (old := old').
      * unfold Session_by_result_id. simpl.
        now rewrite Copy.copy_selections_session_table.
      * simpl. now rewrite Hpk.
  - intros s Hin Hle.
    pose proof (Copy.copy_selections_held sess
                  (selections_of (db w) (session_pk old)) (facette s) (db w))
      as Hheld.
    destruct (Copy.held_after_length _ _ _ _ _ Hheld) as [Hmax Hmin].
    specialize (Hmin s Hin eq_refl).
    change (selections_for (db (cloned_world old sess w)))
      with (selections_for
              (copy_selections sess
                 (selections_of (db w) (session_pk old)) (db w))).
    lia.
Qed.

End CloneProperties.

Lemma get_session_unknown_identifier_witness :
  sample_get_session page_A
    (mkWorld sample_store (sample_request (Some "gone")))
  = Raised AttributeError.
Proof.
  apply (get_session_unknown_identifier sample_result_id "latest" "en"
           page_A (mkWorld sample_store (sample_request (Some "gone")))
           "gone"); reflexivity.
Defined.

Lemma get_session_not_required_witness :
  sample_get_session welcome_page (mkWorld sample_store (sample_request None))
  = Raised AttributeError.
Proof.
  apply (get_session_not_required sample_result_id "latest" "en").
  reflexivity.
Defined.


Lemma clone_selections_copies_witness :
  exists session' w',
    sample_clone_selections "one" session_2
      (mkWorld sample_store (sample_request (Some "two")))
    = Returned (session', w') /\
    selections_for (db w') 2 7 = [mkSelection 2 2 7 "x"] /\
    valid_for session' = "2023" /\
    session_origin session' = Some 1.
Proof.
  destruct (clone_selections_copies sample_result_id "latest" "en"
              "one" session_2
              (mkWorld sample_store (sample_request (Some "two")))
              session_1 eq_refl eq_refl)
    as (session' & w' & Hrun & _ & _ & _ & _ & Hvalid & Horigin & _).
  exists session', w'. repeat split; auto.
  assert (E : Returned (session', w')
              = Returned (with_origin session_1 session_2,
                          cloned_world session_1 session_2
                            (mkWorld sample_store
                               (sample_request (Some "two")))))
    by (rewrite <- Hrun; reflexivity).
  injection E as _ ->. reflexivity.
Defined.

Lemma clone_selections_twice_witness :
  exists session' w',
    sample_clone_selections "one" session_2
      (mkWorld sample_store (sample_request (Some "two")))
    = Returned (session', w') /\
    sample_clone_selections "one" session' w' = Returned (session', w') /\
    length (selections_for (db w') 2 7) = 1%nat.
Proof.
  destruct (clone_selections_twice sample_result_id "latest" "en"
              "one" session_2
              (mkWorld sample_store (sample_request (Some "two")))
              session_1 eq_refl eq_refl)
    as (session' & w' & Hfirst & Hsecond & Hone).
  - simpl. intros r [<- | [<- | [<- | []]]]; simpl; intros; try reflexivity; lia.
  - exists session', w'. repeat split; auto.
    apply (Hone selection_x); simpl; auto.
Defined.

(** C4 as stated fails: a session that already records another origin
    receives no selection at all, and each call stores one more brand-new
    session. *)
Lemma clone_selections_twice_other_origin :
  ~ cloned_once sample_clone_selections "one" session_2_of_3
      (mkWorld relinked_store (sample_request (Some "two"))).
Proof.
  intros (sess' & w' & Hfirst & Hsecond & _).
  vm_compute in Hfirst. injection Hfirst as <- <-.
  apply (f_equal (fun o => match o with
                           | Returned (_, w) => length (session_table (db w))
                           | _ => O
                           end)) in Hsecond.
  vm_compute in Hsecond. discriminate.
Qed.

(** * Properties of the outgoing-link router *)

Section OutgoingProperties.

Variable str_upper : string -> string.

Local Abbreviation route_outgoing := (route_outgoing str_upper).

Lemma replace_by_pk (row : Choosable) rows k :
  List.filter (fun x => choosable_pk x =? k)
    (map (fun r => if choosable_pk r =? choosable_pk row then row else r)
       rows)
  = if k =? choosable_pk row
    then map (fun _ => row)
           (List.filter (fun x => choosable_pk x =? choosable_pk row) rows)
    else List.filter (fun x => choosable_pk x =? k) rows.
Proof.
  induction rows as [|x rows IH]; simpl.
  - now destruct (k =? choosable_pk row).
  - destruct (choosable_pk x =? choosable_pk row) eqn:Ex; simpl.
    + rewrite IH. rewrite (Z.eqb_sym (choosable_pk row) k).
      destruct (k =? choosable_pk row) eqn:Ek; [reflexivity|].
      apply Z.eqb_eq in Ex. rewrite Ex, Z.eqb_sym, Ek. reflexivity.
    + rewrite IH. destruct (k =? choosable_pk row) eqn:Ek.
      * apply Z.eqb_eq in Ek. subst k. now rewrite Ex.
      * reflexivity.
Qed.

(** Saving the only row stored under a key replaces that row and nothing
    else. *)
Lemma save_only_row (row c : Choosable) st k :
  choosable_pk row = choosable_pk c ->
  choosables_by_pk st (choosable_pk c) = [c] ->
  List.filter (fun x => choosable_pk x =? k)
    (save_row choosable_pk row (choosable_table st))
  = if k =? choosable_pk c then [row] else choosables_by_pk st k.
Proof.
  unfold choosables_by_pk. intros Hpk Hone. unfold save_row.
  assert (Hex : existsb (fun r => choosable_pk r =? choosable_pk row)
                  (choosable_table st) = true).
  { apply existsb_exists. exists c. rewrite Hpk.
    assert (Hin : In c [c]) by now left.
    rewrite <- Hone in Hin. apply filter_In in Hin. tauto. }
  rewrite Hex, replace_by_pk, Hpk, Hone. reflexivity.
Qed.

Lemma choosables_by_pk_key st k c :
  In c (choosables_by_pk st k) -> choosable_pk c = k.
Proof.
  unfold choosables_by_pk. intros Hin. apply filter_In in Hin as [_ E].
  now apply Z.eqb_eq.
Qed.

Lemma save_only_row_length (row c : Choosable) st :
  choosable_pk row = choosable_pk c ->
  choosables_by_pk st (choosable_pk c) = [c] ->
  length (save_row choosable_pk row (choosable_table st))
  = length (choosable_table st).
Proof.
  unfold choosables_by_pk. intros Hpk Hone. unfold save_row.
  assert (Hex : existsb (fun r => choosable_pk r =? choosable_pk row)
                  (choosable_table st) = true).
  { apply existsb_exists. exists c. rewrite Hpk.
    assert (Hin : In c [c]) by now left.
    rewrite <- Hone in Hin. apply filter_In in Hin. tauto. }
  rewrite Hex. apply length_map.
Qed.

(** The two outcomes of [route_outgoing], with the world it leaves. *)
Lemma route_outgoing_cases id property w :
  (route_outgoing id property w = Raised Http404 <->
   length (choosables_by_pk (db w) id) <> 1%nat \/
   exists c, choosables_by_pk (db w) id = [c] /\
             meta c !! str_upper property = None) /\
  (forall c entry,
      choosables_by_pk (db w) id = [c] ->
      meta c !! str_upper property = Some entry ->
      exists w',
        route_outgoing id property w
        = Returned (HttpResponseRedirect (meta_value entry), w') /\
        request w' = request w /\
        choosables_by_pk (db w') id = [with_clicked (clicked c + 1) c] /\
        forall k, k <> id ->
                  choosables_by_pk (db w') k = choosables_by_pk (db w) k).
Proof.
  enter_route_outgoing. run.
  fold (choosables_by_pk (db w) id).
  destruct (choosables_by_pk (db w) id) as [|c [|c' rest]] eqn:Egot;
    [simpl | simpl |].
  - split.
    + split; [intros _; left; lia | reflexivity].
    + intros c entry [=].
  - assert (Hpk : choosable_pk c = id)
      by (apply (choosables_by_pk_key (db w)); rewrite Egot; now left).
    destruct (meta c !! str_upper property) as [entry|] eqn:Emeta.
    + split.
      * split; [discriminate|].
        intros [Hlen | (c0 & [= <-] & Hnone)]; [lia | congruence].
      * intros c0 entry0 [= <-] Hentry.
        assert (entry0 = entry) by congruence. subst entry0.
        eexists. split; [reflexivity|]. run. simpl.
        subst id. unfold choosables_by_pk at 1 3. simpl.
        repeat split.
        -- rewrite (save_only_row _ c); auto. now rewrite Z.eqb_refl.
        -- intros k Hk. unfold choosables_by_pk at 1. simpl.
           rewrite (save_only_row _ c); auto.
           apply Z.eqb_neq in Hk. now rewrite Hk.
    + split.
      * split; [|reflexivity]. intros _. right. now exists c.
      * intros c0 entry [= <-] Hentry. congruence.
  - assert (Hmany : (Z.of_nat (length (c :: c' :: rest)) =? 1) = false)
      by (apply Z.eqb_neq; simpl length; lia).
    rewrite Hmany. split.
    + split; [intros _; left; simpl; lia | reflexivity].
    + intros c0 entry [=].
Qed.

(** C8: [route_outgoing] raises [Http404] exactly when the identifier does
    not select exactly one Choosable or the upper-cased property is not a
    key of its [meta]; otherwise it answers with a redirect to the stored
    [meta_value], and the one Choosable stored under the identifier
    afterwards is the same Choosable (key and [meta]) with [clicked] greater
    by exactly 1; all other Choosables, the number of rows, the other
    tables and the request are as before. *)
Theorem route_outgoing_spec id property w :
  (route_outgoing id property w = Raised Http404 <->
   length (choosables_by_pk (db w) id) <> 1%nat \/
   exists c, choosables_by_pk (db w) id = [c] /\
             meta c !! str_upper property = None) /\
  (forall c entry,
      choosables_by_pk (db w) id = [c] ->
      meta c !! str_upper property = Some entry ->
      exists w' c',
        route_outgoing id property w
        = Returned (HttpResponseRedirect (meta_value entry), w') /\
        request w' = request w /\
        choosables_by_pk (db w') id = [c'] /\
        clicked c' = clicked c + 1 /\
        choosable_pk c' = choosable_pk c /\
        meta c' = meta c /\
        (forall k, k <> id ->
                   choosables_by_pk (db w') k = choosables_by_pk (db w) k) /\
        length (choosable_table (db w')) = length (choosable_table (db w)) /\
        page_table (db w') = page_table (db w) /\
        session_table (db w') = session_table (db w) /\
        selection_table (db w') = selection_table (db w) /\
        category_table (db w') = category_table (db w)).
Proof.
  destruct (route_outgoing_cases id property w) as [Hraise Hhit].
  split; [exact Hraise|].
  intros c entry Hgot Hmeta.
  destruct (Hhit c entry Hgot Hmeta) as (w' & Hrun & Hreq & Hid & Hothers).
  exists w', (with_clicked (clicked c + 1) c).
  assert (Hpk : choosable_pk c = id)
    by (apply (choosables_by_pk_key (db w)); rewrite Hgot; now left).
  assert (Hw' : w' = mkWorld
                       (set_choosable_table
                          (save_row choosable_pk
                             (with_clicked (clicked c + 1) c)
                             (choosable_table (db w)))
                          (db w))
                       (request w)).
  { revert Hrun. enter_route_outgoing. run.
    fold (choosables_by_pk (db w) id). rewrite Hgot. simpl.
    rewrite Hmeta. now intros [= <-]. }
  repeat split; auto; rewrite Hw'; simpl; auto.
  apply (save_only_row_length _ c); [reflexivity|]. now rewrite Hpk.
Qed.

End OutgoingProperties.

Lemma route_outgoing_spec_witness :
  route_outgoing upper 6 "website"
    (mkWorld choosable_store (sample_request None)) = Raised Http404 /\
  exists w' c',
    route_outgoing upper 5 "website"
      (mkWorld choosable_store (sample_request None))
    = Returned (HttpResponseRedirect "https://www.debian.org", w') /\
    request w' = sample_request None /\
    choosables_by_pk (db w') 5 = [c'] /\
    clicked c' = 4.
Proof.
  split.
  - apply (proj1 (route_outgoing_spec upper 6 "website"
                    (mkWorld choosable_store (sample_request None)))).
    left. simpl. lia.
  - destruct (proj2 (route_outgoing_spec upper 5 "website"
                       (mkWorld choosable_store (sample_request None)))
                debian (mkMeta "https://www.debian.org") eq_refl eq_refl)
      as (w' & c' & Hrun & Hreq & Hrow & Hclicked & _).
    exists w', c'. repeat split; auto.
Defined.

(** * Properties of the request handler *)

Section HandlerProperties.

Variable new_result_id : Store -> string.
Variable default_valid_for : string.
Variable default_session_language : string.
Variable is_visible : Store -> Page -> Session -> bool.
Variable next_visible_page : Page -> Session -> view (option Page).
Variable Step : Type.
Variable to_step : Category -> WebHttpRequest -> option bool -> Step.
Variable DEFAULT_LANGUAGE_CODE : string.
Variable INCOMPLETE_TRANSLATIONS : list string.
Variable forward_helper :
  option string -> option Z -> Session -> string -> Page ->
  view (option Z * option HttpResponse).
Variable render : Context Step -> WebHttpRequest -> string.

Local Abbreviation route_index_render :=
  (route_index_render is_visible next_visible_page Step to_step
     INCOMPLETE_TRANSLATIONS render).
Local Abbreviation route_index :=
  (route_index new_result_id default_valid_for default_session_language
     is_visible next_visible_page Step to_step DEFAULT_LANGUAGE_CODE
     INCOMPLETE_TRANSLATIONS forward_helper render).

(** On the start page the handler reads [pages[0]] of the visible pages
    before it looks at the visibility of the requested page. *)
Lemma route_index_render_root_without_pages
    underscore lang id page sess categories overwrite_status base_url w :
  Z.of_nat (String.length (full_path (request w))) <= 1 ->
  route_index_render underscore lang id page sess [] categories overwrite_status
    base_url w
  = Raised IndexError.
Proof.
  intros Hroot. enter_route_index_render. run.
  apply Z.leb_le in Hroot. rewrite Hroot. reflexivity.
Qed.

(** Away from the start page, when the requested page is invisible and
    the substitute it is given is invisible too, the handler reaches the
    405 line and fails there: [_] is not callable. *)
Lemma route_index_render_not_callable
    underscore lang id page sess pages categories overwrite_status base_url w
    substitute w' onboard :
  1 < Z.of_nat (String.length (full_path (request w))) ->
  is_visible (db w) page sess = false ->
  next_visible_page page sess w = Returned (Some substitute, w') ->
  session_obj (request w') = Some onboard ->
  is_visible (db w') substitute onboard = false ->
  route_index_render underscore lang id page sess pages categories overwrite_status
    base_url w
  = Raised TypeError.
Proof.
  intros Hpath Hpage Hnext Hobj Hsub.
  enter_route_index_render. run.
  apply Z.leb_gt in Hpath. rewrite Hpath, Hpage. simpl. run.
  rewrite Hnext. run. rewrite Hobj, Hsub. simpl. unfold call.
  now destruct underscore.
Qed.

Lemma nothing_visible st sess pages :
  (forall p, In p pages -> is_visible st p sess = false) ->
  List.filter (fun p => is_visible st p sess) pages = [].
Proof.
  induction pages as [|p pages IH]; intros H; [reflexivity|].
  simpl. rewrite (H p (or_introl eq_refl)). apply IH.
  intros q Hq. apply H. now right.
Qed.

(** C9 (the code does not do this): a first visit to the start page of a
    questionnaire none of whose pages is visible is not answered with 405;
    the handler raises [IndexError] on [pages[0]]. *)
Theorem route_index_root_without_visible_page fuel lang w page next pages :
  GET (request w) !! "page" = None ->
  first (List.filter (fun p => negb (is_invalidated p)) (page_table (db w)))
  = Some page ->
  get_page_route fuel (db w) page = Returned (next, pages) ->
  require_session page = true ->
  session (request w) !! "result_id" = None ->
  method (request w) <> "POST" ->
  Z.of_nat (String.length (full_path (request w))) <= 1 ->
  (forall st p s, is_visible st p s = false) ->
  route_index fuel lang None w = Raised IndexError.
Proof.
  intros Hget Hpage Hroute Hreq Hrid Hmethod Hroot Hvis.
  enter_route_index. run.
  rewrite Hget. change (truthy_str None) with false. cbn beta iota. run.
  rewrite Hpage. run. rewrite Hroute. run.
  unfold get_session, get_fresh_session. run.
  rewrite Hreq, Hrid. run. simpl snd.
  apply String.eqb_neq in Hmethod.
  unfold get_categories_and_filtered_pages.
  match goal with
  | |- context [negb (String.eqb ?a ?b)] => destruct (String.eqb a b)
  end; cbn [negb]; cbn beta iota; run; cbn [snd];
    rewrite nothing_visible by auto;
    unfold refresh_session_obj, set_LANGUAGE_CODE, onboard_session,
      set_session_item; cbn [method]; rewrite Hmethod;
    apply route_index_render_root_without_pages; exact Hroot.
Qed.

End HandlerProperties.

Lemma route_index_root_without_visible_page_witness :
  sample_route_index 3 None None (mkWorld abc_store (sample_request None))
  = Raised IndexError.
Proof.
  apply (route_index_root_without_visible_page sample_result_id "latest" "en"
           hidden no_substitute unit plain_step "en" []
           no_forward blank 3 None
           (mkWorld abc_store (sample_request None))
           page_A None [page_A; page_B; page_C]);
    [reflexivity | reflexivity | reflexivity | reflexivity | reflexivity
    | discriminate | simpl; lia | reflexivity].
Defined.

(** * Further properties of the page chain *)

Module Route.

Lemma follow_row st ref q :
  follow st ref = Returned (Some q) -> stored_page st q.
Proof.
  unfold follow, stored_page. destruct ref as [k|]; [|discriminate].
  destruct (page_by_pk st k) as [r|] eqn:E; [|discriminate].
  intros [= <-]. unfold page_by_pk, first in *.
  assert (Hin : In r (List.filter (fun p => page_pk p =? k) (page_table st)))
    by (destruct (List.filter _ _); [discriminate | left; simpl in E; congruence]).
  apply filter_In in Hin as [_ Hk]. apply Z.eqb_eq in Hk. now rewrite Hk.
Qed.

Lemma walk_previous_grows st :
  forall fuel prev acc pages,
    (forall q, prev = Some q -> stored_page st q) ->
    walk_previous fuel st prev acc = Returned pages ->
    exists pre, pages = pre ++ acc /\ Forall (stored_page st) pre.
Proof.
  induction fuel as [|fuel IH]; intros prev acc pages Hprev H.
  - destruct prev; simpl in H; [discriminate|]. injection H as <-.
    exists []. split; [reflexivity | constructor].
  - destruct prev as [p|]; simpl in H.
    + destruct (follow st (previous_page p)) as [prev'| |] eqn:Ef;
        simpl in H; try discriminate.
      apply IH in H as (pre & -> & Hall).
      * exists (pre ++ [p]). split; [now rewrite <- app_assoc|].
        apply Forall_app. split; [exact Hall|].
        constructor; [now apply Hprev | constructor].
      * intros q ->. eapply follow_row; eauto.
    + injection H as <-. exists []. split; [reflexivity | constructor].
Qed.

Lemma walk_next_grows st :
  forall fuel next acc cursor pages,
    (forall q, next = Some q -> stored_page st q) ->
    walk_next fuel st next acc = Returned (cursor, pages) ->
    exists post, pages = acc ++ post /\ Forall (stored_page st) post.
Proof.
  induction fuel as [|fuel IH]; intros next acc cursor pages Hnext H.
  - destruct next; simpl in H; [discriminate|]. injection H as _ <-.
    exists []. split; [now rewrite app_nil_r | constructor].
  - destruct next as [p|]; simpl in H.
    + destruct (follow st (next_page p)) as [next'| |] eqn:Ef;
        simpl in H; try discriminate.
      apply IH in H as (post & -> & Hall).
      * exists (p :: post). split; [now rewrite <- app_assoc|].
        constructor; [now apply Hnext | exact Hall].
      * intros q ->. eapply follow_row; eauto.
    + injection H as _ <-. exists []. split; [now rewrite app_nil_r | constructor].
Qed.

End Route.

(** X2: whatever the links look like, a route that [get_page_route]
    returns contains the starting page, between the pages collected
    backwards and those collected forwards, and every collected page is a
    stored row. *)
Theorem get_page_route_contains_start fuel st page cursor pages :
  get_page_route fuel st page = Returned (cursor, pages) ->
  exists pre post,
    pages = pre ++ page :: post /\
    Forall (stored_page st) pre /\ Forall (stored_page st) post.
Proof.
  unfold get_page_route. intros H.
  destruct (follow st (previous_page page)) as [prev| |] eqn:Eprev;
    simpl in H; try discriminate.
  destruct (walk_previous fuel st prev []) as [before_pages| |] eqn:Eback;
    simpl in H; try discriminate.
  destruct (follow st (next_page page)) as [next| |] eqn:Enext;
    simpl in H; try discriminate.
  apply Route.walk_previous_grows in Eback as (pre & -> & Hpre);
    [|intros q ->; eapply Route.follow_row; eauto].
  apply Route.walk_next_grows in H as (post & -> & Hpost);
    [|intros q ->; eapply Route.follow_row; eauto].
  exists pre, post. rewrite app_nil_r, <- app_assoc. auto.
Qed.

Lemma get_page_route_contains_start_witness :
  exists pre post,
    [page_A; page_B; page_C] = pre ++ page_B :: post /\
    Forall (stored_page abc_store) pre /\
    Forall (stored_page abc_store) post.
Proof.
  apply (get_page_route_contains_start 3 abc_store page_B None).
  reflexivity.
Defined.

Lemma get_page_route_cursor_witness : @None Page = None.
Proof.
  apply (Chain.get_page_route_cursor abc_store 3 page_B None
           [page_A; page_B; page_C]).
  reflexivity.
Defined.

(** * Further properties of the session functions *)

Module Keys.

Section Keyed.
Context {A : Type} (pk : A -> Z).

(** Saving a row keeps primary keys unique. *)
Lemma save_row_keys row rows :
  NoDup (map pk rows) -> NoDup (map pk (save_row pk row rows)).
Proof.
  intros Hnd. unfold save_row. destruct (existsb _ rows) eqn:Ex.
  - replace (map pk (map (fun r => if pk r =? pk row then row else r) rows))
      with (map pk rows); [exact Hnd|].
    rewrite map_map. apply map_ext. intros r.
    destruct (pk r =? pk row) eqn:E; [|reflexivity].
    now apply Z.eqb_eq in E.
  - rewrite map_app. simpl. apply NoDup_app. repeat split; auto.
    + intros k Hk Hin. apply list_elem_of_In in Hk.
      apply list_elem_of_In in Hin. destruct Hin as [<- | []].
      apply in_map_iff in Hk as (r & E & Hr).
      assert (existsb (fun r => pk r =? pk row) rows = true); [|congruence].
      apply existsb_exists. exists r. split; [exact Hr | now apply Z.eqb_eq].
    + apply NoDup_singleton.
Qed.

End Keyed.

Lemma first_filter_snoc {A} (sel : A -> bool) rows row :
  sel row = true -> is_Some (first (List.filter sel (rows ++ [row]))).
Proof.
  intros Hsel. rewrite List.filter_app. simpl. rewrite Hsel.
  destruct (List.filter sel rows); simpl; eauto.
Qed.

Lemma first_filter_sel {A} (sel : A -> bool) rows r :
  first (List.filter sel rows) = Some r -> sel r = true /\ In r rows.
Proof.
  intros H.
  assert (Hin : In r (List.filter sel rows))
    by (destruct (List.filter sel rows); [discriminate | left; simpl in H; congruence]).
  apply filter_In in Hin. tauto.
Qed.

End Keys.

Section SessionExtras.

Variable new_result_id : Store -> string.
Variable default_valid_for : string.
Variable default_session_language : string.

Local Abbreviation Session_new :=
  (Session_new new_result_id default_valid_for default_session_language).
Local Abbreviation get_fresh_session :=
  (get_fresh_session new_result_id default_valid_for default_session_language).
Local Abbreviation get_session :=
  (get_session new_result_id default_valid_for default_session_language).

(** X3: [get_fresh_session] stores exactly one more session row, under
    a primary key no stored session has, with the request's user agent, no
    origin and no referrer; every other table and the request are as
    before.  The object handed back is that row with the request's referrer
    set on it: the referrer is assigned after the save and is not
    stored. *)
Theorem get_fresh_session_persists w :
  exists row created w',
    get_fresh_session w = Returned (created, w') /\
    session_table (db w') = session_table (db w) ++ [row] /\
    ~ In (session_pk row) (map session_pk (session_table (db w))) /\
    referrer row = None /\
    user_agent row = headers (request w) !! "user-agent" /\
    session_origin row = None /\
    referrer created = headers (request w) !! "referrer" /\
    session_pk created = session_pk row /\
    result_id created = result_id row /\
    valid_for created = valid_for row /\
    session_origin created = session_origin row /\
    language_code created = language_code row /\
    user_agent created = user_agent row /\
    request w' = request w /\
    selection_table (db w') = selection_table (db w) /\
    page_table (db w') = page_table (db w) /\
    category_table (db w') = category_table (db w) /\
    choosable_table (db w') = choosable_table (db w).
Proof.
  exists (Session_new (db w) (headers (request w) !! "user-agent") None).
  eexists _, _. split; [apply get_fresh_session_run|].
  simpl. repeat split; auto. apply Rows.fresh_pk_not_in.
Qed.

(** X6: on a page that requires a session, a visitor without a
    [result_id] gets a fresh session, and its [result_id] is written into
    [request.session]. *)
Theorem get_session_first_visit page w :
  require_session page = true ->
  session (request w) !! "result_id" = None ->
  exists created w',
    get_fresh_session w = Returned (created, w') /\
    get_session page w
    = Returned (created,
                mkWorld (db w')
                  (set_session_item "result_id" (result_id created)
                     (request w'))) /\
    session (set_session_item "result_id" (result_id created) (request w'))
      !! "result_id" = Some (result_id created).
Proof.
  intros Hreq Hrid.
  eexists _, _. split; [apply get_fresh_session_run|]. split.
  - enter_get_session. run. rewrite Hreq, Hrid. run.
    enter_get_fresh_session. run. now rewrite save_new_session.
  - simpl. apply lookup_insert_eq.
Qed.

(** X7: whenever [get_session] returns, the page required a session, the
    returned session's [result_id] is what [request.session] now holds, and
    a stored session answers to that identifier. *)
Theorem get_session_records_identifier page w sess w' :
  get_session page w = Returned (sess, w') ->
  require_session page = true /\
  session (request w') !! "result_id" = Some (result_id sess) /\
  is_Some (Session_by_result_id (db w') (result_id sess)).
Proof.
  enter_get_session. run.
  destruct (require_session page); [|discriminate].
  destruct (session (request w) !! "result_id") as [rid|] eqn:Erid.
  - run. destruct (Session_by_result_id (db w) rid) as [found|] eqn:Efound;
      [|discriminate]. run.
    destruct (String.eqb (valid_for found) "latest"); simpl negb; cbn iota.
    + run. intros [= <- <-]. repeat split.
      * simpl. apply lookup_insert_eq.
      * simpl. pose proof Efound as Hfound. unfold Session_by_result_id in Hfound.
        apply Keys.first_filter_sel in Hfound as [Hsel _].
        apply String.eqb_eq in Hsel. rewrite Hsel, Efound. now exists found.
    + enter_get_fresh_session. run. intros [= <- <-]. repeat split.
      * simpl. apply lookup_insert_eq.
      * simpl. rewrite save_new_session.
        apply Keys.first_filter_snoc. apply String.eqb_refl.
  - enter_get_fresh_session. run. intros [= <- <-]. repeat split.
    + simpl. apply lookup_insert_eq.
    + simpl. rewrite save_new_session.
      apply Keys.first_filter_snoc. apply String.eqb_refl.
Qed.

(** X8: [get_session] keeps the primary keys of the stored sessions
    unique. *)
Theorem get_session_keeps_keys page w sess w' :
  NoDup (map session_pk (session_table (db w))) ->
  get_session page w = Returned (sess, w') ->
  NoDup (map session_pk (session_table (db w'))).
Proof.
  intros Hnd. enter_get_session. run.
  destruct (require_session page); [|discriminate].
  destruct (session (request w) !! "result_id") as [rid|] eqn:Erid.
  - run. destruct (Session_by_result_id (db w) rid) as [found|] eqn:Efound;
      [|discriminate]. run.
    destruct (String.eqb (valid_for found) "latest"); simpl negb; cbn iota.
    + run. now intros [= <- <-].
    + enter_get_fresh_session. run. intros [= <- <-]. simpl.
      now apply Keys.save_row_keys.
  - enter_get_fresh_session. run. intros [= <- <-]. simpl.
    now apply Keys.save_row_keys.
Qed.

End SessionExtras.

(** * Further properties of cloning *)

Lemma copy_selections_keeps_keys session selections :
  forall st,
    NoDup (map selection_pk (selection_table st)) ->
    NoDup (map selection_pk
             (selection_table (copy_selections session selections st))).
Proof.
  induction selections as [|s rest IH]; intros st Hnd; [exact Hnd|].
  simpl. apply IH. destruct (_ =? 0); [|exact Hnd].
  unfold copy_selection. simpl. now apply Keys.save_row_keys.
Qed.

Lemma copy_selections_choosable_table session selections :
  forall st,
    choosable_table (copy_selections session selections st)
    = choosable_table st.
Proof.
  induction selections as [|s rest IH]; intros st; [reflexivity|].
  simpl. rewrite IH. now destruct (_ =? 0).
Qed.

Section CloneExtras.

Variable new_result_id : Store -> string.
Variable default_valid_for : string.
Variable default_session_language : string.

Local Abbreviation Session_new :=
  (Session_new new_result_id default_valid_for default_session_language).
Local Abbreviation clone_selections :=
  (clone_selections new_result_id default_valid_for default_session_language).

(** X9: an identifier that matches no stored session is ignored:
    nothing is copied, stored or written, and no error is raised. *)
Theorem clone_selections_unknown_id id sess w :
  Session_by_result_id (db w) id = None ->
  clone_selections id sess w = Returned (sess, w).
Proof.
  intros Hnone. enter_clone_selections. run. rewrite Hnone.
  now destruct w.
Qed.

(** X10: [clone_selections] always returns, handing back a session with
    the caller's primary key.  It never alters or removes a stored
    selection: the selection table only grows, by rows of the receiving
    session; pages and Choosables are untouched. *)
Theorem clone_selections_only_appends id sess w :
  exists sess' w' added,
    clone_selections id sess w = Returned (sess', w') /\
    session_pk sess' = session_pk sess /\
    selection_table (db w') = selection_table (db w) ++ added /\
    Forall (fun x => selection_session x = session_pk sess) added /\
    page_table (db w') = page_table (db w) /\
    choosable_table (db w') = choosable_table (db w).
Proof.
  enter_clone_selections. run.
  destruct (Session_by_result_id (db w) id) as [old|].
  - destruct (session_origin sess) as [origin|].
    + destruct (negb (origin =? session_pk old)); run.
      * eexists _, _, []. split; [reflexivity|]. simpl.
        rewrite app_nil_r. repeat split; auto.
      * exists sess, w, []. rewrite app_nil_r. destruct w.
        repeat split; auto.
    + run.
      destruct (Copy.copy_selections_appends sess
                  (selections_of (db w) (session_pk old)) (db w))
        as (added & E & Hall).
      eexists _, _, added. split; [reflexivity|]. simpl.
      rewrite E, Copy.copy_selections_page_table,
        copy_selections_choosable_table.
      repeat split; auto.
  - exists sess, w, []. rewrite app_nil_r. destruct w. repeat split; auto.
Qed.

(** X11: [clone_selections] keeps the primary keys of the stored
    selections and of the stored sessions unique. *)
Theorem clone_selections_keeps_keys id sess w sess' w' :
  NoDup (map selection_pk (selection_table (db w))) ->
  NoDup (map session_pk (session_table (db w))) ->
  clone_selections id sess w = Returned (sess', w') ->
  NoDup (map selection_pk (selection_table (db w'))) /\
  NoDup (map session_pk (session_table (db w'))).
Proof.
  intros Hsel Hses. enter_clone_selections. run.
  destruct (Session_by_result_id (db w) id) as [old|].
  - destruct (session_origin sess) as [origin|].
    + destruct (negb (origin =? session_pk old)); run.
      * intros [= <- <-]. simpl. split; [exact Hsel|].
        now apply Keys.save_row_keys.
      * now intros [= <- <-].
    + run. intros [= <- <-]. simpl. split.
      * now apply copy_selections_keeps_keys.
      * apply Keys.save_row_keys.
        now rewrite Copy.copy_selections_session_table.
  - now intros [= <- <-].
Qed.

End CloneExtras.

(** * Properties of the navigation data *)

Ltac enter_get_categories_and_filtered_pages :=
  unfold get_categories_and_filtered_pages.
Ltac enter_build_step_data := unfold build_step_data.

Section NavigationExtras.

Variable is_visible : Store -> Page -> Session -> bool.

Local Abbreviation get_categories_and_filtered_pages :=
  (get_categories_and_filtered_pages is_visible).

Lemma filter_sublist {A} (sel : A -> bool) (l : list A) :
  sublist (List.filter sel l) l.
Proof.
  induction l as [|x l IH]; simpl; [constructor|].
  destruct (sel x); now constructor.
Qed.

Lemma category_of_first st p c :
  In c (category_of st p) <-> first (top_categories_of st p) = Some c.
Proof.
  unfold category_of. destruct (top_categories_of st p) as [|c0 rest]; simpl.
  - split; [tauto | discriminate].
  - split; [intros [-> | []]; reflexivity | intros [= ->]; now left].
Qed.

Lemma category_of_length st pages :
  (length (flat_map (category_of st) pages) <= length pages)%nat.
Proof.
  induction pages as [|p pages IH]; simpl; [lia|].
  rewrite length_app.
  assert (length (category_of st p) <= 1)%nat
    by (unfold category_of; destruct (top_categories_of st p); simpl; lia).
  lia.
Qed.

(** X12: the pages handed back are exactly the visible ones, in their
    order; the categories are collected from all pages, visible or not:
    for each page the first top-level category that targets it, if there
    is one, and nothing else. *)
Theorem get_categories_and_filtered_pages_spec st pages sess :
  let result := get_categories_and_filtered_pages st pages sess in
  (forall p, In p (fst result) <->
             In p pages /\ is_visible st p sess = true) /\
  sublist (fst result) pages /\
  (forall c, In c (snd result) <->
             exists p, In p pages /\
                       first (top_categories_of st p) = Some c) /\
  (forall c, In c (snd result) ->
             child_of c = None /\ In c (category_table st)) /\
  (length (snd result) <= length pages)%nat.
Proof.
  enter_get_categories_and_filtered_pages. simpl.
  fold (category_of st).
  assert (Hcat : forall c,
             In c (flat_map (category_of st) pages) <->
             exists p, In p pages /\
                       first (top_categories_of st p) = Some c).
  { intros c. rewrite in_flat_map.
    split; intros (p & Hp & Hc); exists p; (split; [exact Hp|]);
      now apply category_of_first. }
  split; [|split; [|split; [|split]]].
  - intros p. rewrite filter_In. tauto.
  - apply filter_sublist.
  - exact Hcat.
  - intros c Hin. apply Hcat in Hin as (p & _ & Hfirst).
    apply Keys.first_filter_sel in Hfirst as [Hsel Hin].
    apply andb_true_iff in Hsel as [_ Htop].
    split; [now destruct (child_of c) | exact Hin].
  - apply category_of_length.
Qed.

End NavigationExtras.

Section StepExtras.

Variable Step : Type.
Variable to_step : Category -> WebHttpRequest -> option bool -> Step.

Local Abbreviation build_step_data := (build_step_data Step to_step).

(** X13: [build_step_data] makes one step per category, in order, and
    builds exactly the last one with the is-last flag set. *)
Theorem build_step_data_snoc st categories c request :
  build_step_data st (categories ++ [c]) request
  = map (step_of to_step st request false) categories
    ++ [step_of to_step st request true c].
Proof.
  enter_build_step_data. rewrite imap_app. f_equal.
  - rewrite <- (imap_const (step_of to_step st request false)).
    apply imap_ext. intros i x Hi. apply lookup_lt_Some in Hi.
    unfold step_of. simpl.
    replace (Z.of_nat i =? Z.of_nat (length (categories ++ [c])) - 1)
      with false; [reflexivity|].
    symmetry. apply Z.eqb_neq. rewrite length_app. simpl. lia.
  - simpl. unfold step_of.
    replace (Z.of_nat (length categories + 0)
             =? Z.of_nat (length (categories ++ [c])) - 1)
      with true; [reflexivity|].
    symmetry. apply Z.eqb_eq. rewrite length_app. simpl. lia.
Qed.

End StepExtras.

(** * Further properties of the outgoing-link router *)

Section OutgoingExtras.

Variable str_upper : string -> string.

Local Abbreviation route_outgoing := (route_outgoing str_upper).

Lemma route_outgoing_hit id property w c entry :
  choosables_by_pk (db w) id = [c] ->
  meta c !! str_upper property = Some entry ->
  route_outgoing id property w
  = Returned
      (HttpResponseRedirect (meta_value entry),
       mkWorld
         (set_choosable_table
            (save_row choosable_pk (with_clicked (clicked c + 1) c)
               (choosable_table (db w)))
            (db w))
         (request w)).
Proof.
  intros Hgot Hmeta. enter_route_outgoing. run.
  fold (choosables_by_pk (db w) id). rewrite Hgot. simpl.
  rewrite Hmeta. reflexivity.
Qed.

Lemma route_outgoing_counts_row n id property :
  forall w c entry,
    choosables_by_pk (db w) id = [c] ->
    meta c !! str_upper property = Some entry ->
    exists w',
      calls n (route_outgoing id property) w = Returned w' /\
      choosables_by_pk (db w') id = [with_clicked (clicked c + Z.of_nat n) c] /\
      (forall k, k <> id ->
                 choosables_by_pk (db w') k = choosables_by_pk (db w) k) /\
      request w' = request w.
Proof.
  induction n as [|n IH]; intros w c entry Hgot Hmeta.
  - exists w. simpl. repeat split; auto.
    rewrite Hgot. destruct c as [k n m]. unfold with_clicked. simpl.
    now rewrite Z.add_0_r.
  - assert (Hpk : choosable_pk c = id)
      by (apply (choosables_by_pk_key (db w)); rewrite Hgot; now left).
    simpl calls. rewrite (route_outgoing_hit id property w c entry Hgot Hmeta).
    set (c1 := with_clicked (clicked c + 1) c).
    set (w1 := mkWorld _ (request w)).
    assert (Hone : forall k,
               choosables_by_pk (db w1) k
               = if k =? id then [c1] else choosables_by_pk (db w) k).
    { intros k. unfold choosables_by_pk at 1. simpl. subst id.
      now apply save_only_row. }
    destruct (IH w1 c1 entry) as (w' & Hcalls & Hid & Hothers & Hreq).
    + now rewrite Hone, Z.eqb_refl.
    + exact Hmeta.
    + exists w'. repeat split; auto.
      * rewrite Hid. unfold c1, with_clicked. simpl. do 2 f_equal. lia.
      * intros k Hk. rewrite (Hothers k Hk), Hone.
        apply Z.eqb_neq in Hk. now rewrite Hk.
Qed.

(** X14: calls compose: after [n] calls for a known Choosable and
    property, the one Choosable stored under the identifier is the same
    Choosable (key and [meta]) with [clicked] greater by exactly [n]; every
    other Choosable and the request are as before. *)
Theorem route_outgoing_counts n id property w c entry :
  choosables_by_pk (db w) id = [c] ->
  meta c !! str_upper property = Some entry ->
  exists w' c',
    calls n (route_outgoing id property) w = Returned w' /\
    choosables_by_pk (db w') id = [c'] /\
    clicked c' = clicked c + Z.of_nat n /\
    choosable_pk c' = choosable_pk c /\
    meta c' = meta c /\
    (forall k, k <> id ->
               choosables_by_pk (db w') k = choosables_by_pk (db w) k) /\
    request w' = request w.
Proof.
  intros Hgot Hmeta.
  destruct (route_outgoing_counts_row n id property w c entry Hgot Hmeta)
    as (w' & Hcalls & Hid & Hothers & Hreq).
  exists w', (with_clicked (clicked c + Z.of_nat n) c).
  repeat split; auto.
Qed.

End OutgoingExtras.

Lemma route_outgoing_counts_witness :
  exists w' c',
    calls 3 (route_outgoing upper 5 "website")
      (mkWorld choosable_store (sample_request None)) = Returned w' /\
    choosables_by_pk (db w') 5 = [c'] /\
    clicked c' = 6 /\
    request w' = sample_request None.
Proof.
  destruct (route_outgoing_counts upper 3 5 "website"
              (mkWorld choosable_store (sample_request None)) debian
              (mkMeta "https://www.debian.org") eq_refl eq_refl)
    as (w' & c' & Hcalls & Hrow & Hclicked & _ & _ & _ & Hreq).
  exists w', c'. repeat split; auto.
Defined.

(** * Further properties of the request handler *)

Section HandlerExtras.

Variable new_result_id : Store -> string.
Variable default_valid_for : string.
Variable default_session_language : string.
Variable is_visible : Store -> Page -> Session -> bool.
Variable next_visible_page : Page -> Session -> view (option Page).
Variable Step : Type.
Variable to_step : Category -> WebHttpRequest -> option bool -> Step.
Variable DEFAULT_LANGUAGE_CODE : string.
Variable INCOMPLETE_TRANSLATIONS : list string.
Variable forward_helper :
  option string -> option Z -> Session -> string -> Page ->
  view (option Z * option HttpResponse).
Variable render : Context Step -> WebHttpRequest -> string.

Local Abbreviation route_index_render :=
  (route_index_render is_visible next_visible_page Step to_step
     INCOMPLETE_TRANSLATIONS render).
Local Abbreviation route_index :=
  (route_index new_result_id default_valid_for default_session_language
     is_visible next_visible_page Step to_step DEFAULT_LANGUAGE_CODE
     INCOMPLETE_TRANSLATIONS forward_helper render).

(** X15: a [page] parameter that does not select exactly one valid page
    is not answered with a not-found response: [Page.objects.get] raises
    [DoesNotExist] when no valid page has that [catalogue_id] (an
    invalidated page does not count) and [MultipleObjectsReturned] when
    several have. *)
Theorem route_index_page_lookup fuel lang id w page_id :
  GET (request w) !! "page" = Some page_id ->
  page_id <> "" ->
  let matches :=
    List.filter (fun p => String.eqb (catalogue_id p) page_id
                          && negb (is_invalidated p))
      (page_table (db w)) in
  (matches = [] -> route_index fuel lang id w = Raised DoesNotExist) /\
  ((2 <= length matches)%nat ->
   route_index fuel lang id w = Raised MultipleObjectsReturned).
Proof.
  intros Hget Hne matches. subst matches.
  apply String.eqb_neq in Hne.
  split; intros Hm; enter_route_index; run; rewrite Hget;
    unfold truthy_str; rewrite Hne; simpl negb; cbn iota; run;
    change (default "" (Some page_id)) with page_id.
  - now rewrite Hm.
  - destruct (List.filter _ (page_table (db w))) as [|p [|q rest]];
      simpl in Hm; try lia. reflexivity.
Qed.

(** X16: without a [page] parameter and without any valid page the
    handler has no page to start from and raises [AttributeError]. *)
Theorem route_index_without_pages fuel lang id w :
  truthy_str (GET (request w) !! "page") = false ->
  List.filter (fun p => negb (is_invalidated p)) (page_table (db w)) = [] ->
  route_index fuel lang id w = Raised AttributeError.
Proof.
  intros Hget Hnone. enter_route_index. run. rewrite Hget. cbn iota. run.
  now rewrite Hnone.
Qed.

(** X17: a start page that does not require a session cannot be served:
    once the route is resolved, the handler fails in [get_session] with
    [AttributeError]. *)
Theorem route_index_sessionless_page fuel lang id w page route :
  truthy_str (GET (request w) !! "page") = false ->
  first (List.filter (fun p => negb (is_invalidated p)) (page_table (db w)))
  = Some page ->
  get_page_route fuel (db w) page = Returned route ->
  require_session page = false ->
  route_index fuel lang id w = Raised AttributeError.
Proof.
  intros Hget Hpage Hroute Hreq. enter_route_index. run.
  rewrite Hget. cbn iota. run. rewrite Hpage. run. rewrite Hroute. run.
  enter_get_session. run. now rewrite Hreq.
Qed.

(** X18: a first visit away from the start page, with no visible page
    and a substitute that is as invisible, is not answered with 405: the
    handler reaches [HttpResponseNotAllowed(_("PAGE_NOT_AVAILABLE"))], where
    [_] is its own local, and raises [TypeError]. *)
Theorem route_index_invisible_raises fuel lang w page next pages substitute :
  GET (request w) !! "page" = None ->
  first (List.filter (fun p => negb (is_invalidated p)) (page_table (db w)))
  = Some page ->
  get_page_route fuel (db w) page = Returned (next, pages) ->
  require_session page = true ->
  session (request w) !! "result_id" = None ->
  method (request w) <> "POST" ->
  1 < Z.of_nat (String.length (full_path (request w))) ->
  (forall st p s, is_visible st p s = false) ->
  (forall p s w0, next_visible_page p s w0 = Returned (Some substitute, w0)) ->
  route_index fuel lang None w = Raised TypeError.
Proof.
  intros Hget Hpage Hroute Hreq Hrid Hmethod Hpath Hvis Hnext.
  enter_route_index. run.
  rewrite Hget. change (truthy_str None) with false. cbn beta iota. run.
  rewrite Hpage. run. rewrite Hroute. run.
  enter_get_session. enter_get_fresh_session. run.
  rewrite Hreq, Hrid. run. simpl snd.
  apply String.eqb_neq in Hmethod.
  enter_get_categories_and_filtered_pages.
  match goal with
  | |- context [negb (String.eqb ?a ?b)] => destruct (String.eqb a b)
  end; cbn [negb]; cbn beta iota; run; cbn [snd];
    unfold refresh_session_obj, set_LANGUAGE_CODE, onboard_session,
      set_session_item; cbn [method]; rewrite Hmethod;
    eapply route_index_render_not_callable; eauto.
Qed.

(** X23: the tail of the handler never answers with
    [HttpResponseNotAllowed]: whatever it returns is a rendered
    [HttpResponse]. *)
Theorem route_index_render_never_not_allowed
    underscore lang id page sess pages categories overwrite_status base_url
    w response w' :
  route_index_render underscore lang id page sess pages categories
    overwrite_status base_url w
  = Returned (response, w') ->
  exists content status, response = HttpResponse_ content status.
Proof.
  enter_route_index_render. run.
  destruct (Z.of_nat (String.length (full_path (request w))) <=? 1).
  - destruct pages as [|first_page rest]; simpl; [discriminate|]. run.
    destruct (negb (is_visible (db w) page sess)).
    + destruct (next_visible_page page sess w) as [[found w1]| |];
        try discriminate.
      destruct found as [found|]; [|discriminate].
      destruct (session_obj (request w1)) as [onboard|]; [|discriminate].
      destruct (negb (is_visible (db w1) found onboard)).
      * unfold call. destruct underscore; discriminate.
      * destruct (LANGUAGE_CODE (request w1)); [|discriminate].
        intros [= <- _]. eauto.
    + destruct (session_obj (request w)) as [onboard|]; [|discriminate].
      destruct (negb (is_visible (db w) page onboard)).
      * unfold call. destruct underscore; discriminate.
      * destruct (LANGUAGE_CODE (request w)); [|discriminate].
        intros [= <- _]. eauto.
  - destruct (negb (is_visible (db w) page sess)).
    + destruct (next_visible_page page sess w) as [[found w1]| |];
        try discriminate.
      destruct found as [found|]; [|discriminate].
      destruct (session_obj (request w1)) as [onboard|]; [|discriminate].
      destruct (negb (is_visible (db w1) found onboard)).
      * unfold call. destruct underscore; discriminate.
      * destruct (LANGUAGE_CODE (request w1)); [|discriminate].
        intros [= <- _]. eauto.
    + destruct (session_obj (request w)) as [onboard|]; [|discriminate].
      destruct (negb (is_visible (db w) page onboard)).
      * unfold call. destruct underscore; discriminate.
      * destruct (LANGUAGE_CODE (request w)); [|discriminate].
        intros [= <- _]. eauto.
Qed.

(** X19: once the page is visible, the status that a POST handed over
    survives only on a turbo request: without an [accept] header naming
    "turbo" the response status is 200, with one it is the status handed
    over. *)
Theorem route_index_render_status
    underscore lang id page sess pages categories overwrite_status base_url w
    onboard code :
  1 < Z.of_nat (String.length (full_path (request w))) ->
  is_visible (db w) page sess = true ->
  session_obj (request w) = Some onboard ->
  is_visible (db w) page onboard = true ->
  LANGUAGE_CODE (request w) = Some code ->
  exists content,
    ((forall accept, headers (request w) !! "accept" = Some accept ->
                     str_contains "turbo" accept = false) ->
     route_index_render underscore lang id page sess pages categories overwrite_status
       base_url w
     = Returned (HttpResponse_ content (Some 200), w)) /\
    (forall accept, headers (request w) !! "accept" = Some accept ->
                    str_contains "turbo" accept = true ->
     route_index_render underscore lang id page sess pages categories overwrite_status
       base_url w
     = Returned (HttpResponse_ content overwrite_status, w)).
Proof.
  intros Hpath Hpage Hobj Hvis Hcode.
  eexists. split.
  - intros Hplain. enter_route_index_render. run.
    apply Z.leb_gt in Hpath. rewrite Hpath, Hpage. cbn [negb]. cbn beta iota. run.
    rewrite Hobj. run. rewrite Hvis. cbn [negb]. cbn beta iota. run.
    rewrite Hcode. run.
    destruct (headers (request w) !! "accept") as [accept|] eqn:Eaccept.
    + rewrite (Hplain accept eq_refl). destruct w. reflexivity.
    + destruct w. reflexivity.
  - intros accept Haccept Hturbo. enter_route_index_render. run.
    apply Z.leb_gt in Hpath. rewrite Hpath, Hpage. cbn [negb]. cbn beta iota. run.
    rewrite Hobj. run. rewrite Hvis. cbn [negb]. cbn beta iota. run.
    rewrite Hcode. run.
    rewrite Haccept, Hturbo. destruct w. reflexivity.
Qed.

End HandlerExtras.

(** * The copy loop run again *)

Lemma copy_selections_settled session selections :
  forall st,
    (forall s, In s selections ->
               selections_for st (session_pk session) (facette s) <> []) ->
    copy_selections session selections st = st.
Proof.
  induction selections as [|s rest IH]; intros st H; [reflexivity|].
  simpl.
  destruct (selections_for st (session_pk session) (facette s)) eqn:E.
  - exfalso. apply (H s); [now left | exact E].
  - simpl. apply IH. intros s' Hs'. apply H. now right.
Qed.

(** X20: the guard of the copy loop (prevent double copies) makes the loop
    idempotent: run again on its own result, over the same selections, it
    stores nothing. *)
Theorem copy_selections_again session selections st :
  copy_selections session selections
    (copy_selections session selections st)
  = copy_selections session selections st.
Proof.
  apply copy_selections_settled. intros s Hin E.
  pose proof (Copy.copy_selections_held session selections (facette s) st)
    as Hheld.
  destruct (Copy.held_after_length _ _ _ _ _ Hheld) as [_ Hmin].
  specialize (Hmin s Hin eq_refl). rewrite E in Hmin. simpl in Hmin. lia.
Qed.

(** * The handler on malformed chains and on forwarded requests *)

Section HandlerFlow.

Variable new_result_id : Store -> string.
Variable default_valid_for : string.
Variable default_session_language : string.
Variable is_visible : Store -> Page -> Session -> bool.
Variable next_visible_page : Page -> Session -> view (option Page).
Variable Step : Type.
Variable to_step : Category -> WebHttpRequest -> option bool -> Step.
Variable DEFAULT_LANGUAGE_CODE : string.
Variable INCOMPLETE_TRANSLATIONS : list string.
Variable forward_helper :
  option string -> option Z -> Session -> string -> Page ->
  view (option Z * option HttpResponse).
Variable render : Context Step -> WebHttpRequest -> string.

Local Abbreviation route_index :=
  (route_index new_result_id default_valid_for default_session_language
     is_visible next_visible_page Step to_step DEFAULT_LANGUAGE_CODE
     INCOMPLETE_TRANSLATIONS forward_helper render).

(** X21: when the [previous_page] links of the start page run in a
    cycle, the handler never answers: it is stuck in [get_page_route]
    before any session is created. *)
Theorem route_index_cycle_hangs fuel lang id w page :
  truthy_str (GET (request w) !! "page") = false ->
  first (List.filter (fun p => negb (is_invalidated p)) (page_table (db w)))
  = Some page ->
  cycle_through previous_page (db w) page ->
  route_index fuel lang id w = Diverged.
Proof.
  intros Hget Hpage Hcycle. enter_route_index. run.
  rewrite Hget. cbn iota. run. rewrite Hpage. run.
  now rewrite Chain.previous_cycle_diverges.
Qed.

(** X22: a POST for which [forward_helper] hands back a response and no
    status is answered with that response as it is: neither the start-page
    lookup of [pages[0]] nor the visibility check is reached. *)
Theorem route_index_forwarded fuel lang w page next pages response :
  GET (request w) !! "page" = None ->
  first (List.filter (fun p => negb (is_invalidated p)) (page_table (db w)))
  = Some page ->
  get_page_route fuel (db w) page = Returned (next, pages) ->
  require_session page = true ->
  session (request w) !! "result_id" = None ->
  method (request w) = "POST" ->
  (forall id status s base_url p w0,
      forward_helper id status s base_url p w0
      = Returned ((None, Some (response base_url)), w0)) ->
  exists base_url w',
    route_index fuel lang None w = Returned (response base_url, w').
Proof.
  intros Hget Hpage Hroute Hreq Hrid Hmethod Hforward.
  enter_route_index. run.
  rewrite Hget. change (truthy_str None) with false. cbn beta iota. run.
  rewrite Hpage. run. rewrite Hroute. run.
  enter_get_session. enter_get_fresh_session. run.
  rewrite Hreq, Hrid. run. simpl snd.
  enter_get_categories_and_filtered_pages.
  match goal with
  | |- context [negb (String.eqb ?a ?b)] => destruct (String.eqb a b)
  end; cbn [negb]; cbn beta iota; run; cbn [snd];
    unfold refresh_session_obj, set_LANGUAGE_CODE, onboard_session,
      set_session_item; cbn [method]; rewrite Hmethod;
    change (String.eqb "POST" "POST") with true; cbn beta iota;
    rewrite Hforward; eexists _, _; reflexivity.
Qed.

End HandlerFlow.

(** * The further properties at sample inputs *)

Lemma get_session_stale_witness :
  exists created w',
    get_fresh_session sample_result_id "latest" "en"
      (mkWorld sample_store (sample_request (Some "one")))
    = Returned (created, w') /\
    sample_get_session page_A
      (mkWorld sample_store (sample_request (Some "one")))
    = Returned (created,
                mkWorld (db w')
                  (set_session_item "result_id" (result_id created)
                     (request w'))) /\
    session (set_session_item "result_id" (result_id created) (request w'))
      !! "result_id" = Some (result_id created).
Proof.
  apply (get_session_stale sample_result_id "latest" "en" page_A
           (mkWorld sample_store (sample_request (Some "one")))
           "one" session_1);
    [reflexivity | reflexivity | reflexivity | discriminate].
Defined.

Lemma get_session_latest_witness :
  sample_get_session page_A
    (mkWorld sample_store (sample_request (Some "two")))
  = Returned (session_2,
              mkWorld sample_store
                (set_session_item "result_id" "two"
                   (sample_request (Some "two")))) /\
  session (set_session_item "result_id" "two" (sample_request (Some "two")))
    !! "result_id" = Some "two".
Proof.
  apply (get_session_latest sample_result_id "latest" "en" page_A
           (mkWorld sample_store (sample_request (Some "two")))
           "two" session_2); reflexivity.
Defined.

Lemma get_session_first_visit_witness :
  exists created w',
    get_fresh_session sample_result_id "latest" "en"
      (mkWorld sample_store (sample_request None))
    = Returned (created, w') /\
    sample_get_session page_A (mkWorld sample_store (sample_request None))
    = Returned (created,
                mkWorld (db w')
                  (set_session_item "result_id" (result_id created)
                     (request w'))) /\
    session (set_session_item "result_id" (result_id created) (request w'))
      !! "result_id" = Some (result_id created).
Proof.
  apply (get_session_first_visit sample_result_id "latest" "en" page_A
           (mkWorld sample_store (sample_request None))); reflexivity.
Defined.

Lemma get_session_records_identifier_witness :
  require_session page_A = true /\
  session (set_session_item "result_id" "two" (sample_request (Some "two")))
    !! "result_id" = Some "two" /\
  is_Some (Session_by_result_id sample_store "two").
Proof.
  apply (get_session_records_identifier sample_result_id "latest" "en"
           page_A (mkWorld sample_store (sample_request (Some "two")))
           session_2
           (mkWorld sample_store
              (set_session_item "result_id" "two"
                 (sample_request (Some "two"))))).
  reflexivity.
Defined.

Lemma get_session_keeps_keys_witness :
  NoDup (map session_pk
           (session_table sample_store
            ++ [Session_new sample_result_id "latest" "en" sample_store
                  (Some "lynx") None])).
Proof.
  apply (get_session_keeps_keys sample_result_id "latest" "en" page_A
           (mkWorld sample_store (sample_request None))
           (Session_new sample_result_id "latest" "en" sample_store
              (Some "lynx") None)
           (mkWorld
              (set_session_table
                 (session_table sample_store
                  ++ [Session_new sample_result_id "latest" "en" sample_store
                        (Some "lynx") None])
                 sample_store)
              (set_session_item "result_id" "rrrr" (sample_request None)))).
  - apply (bool_decide_unpack _). vm_compute. exact I.
  - reflexivity.
Defined.

Lemma clone_selections_unknown_id_witness :
  sample_clone_selections "nine" session_2
    (mkWorld sample_store (sample_request (Some "two")))
  = Returned (session_2, mkWorld sample_store (sample_request (Some "two"))).
Proof.
  apply (clone_selections_unknown_id sample_result_id "latest" "en").
  reflexivity.
Defined.

Lemma clone_selections_keeps_keys_witness :
  NoDup (map selection_pk
           (selection_table
              (db (cloned_world session_1 session_2
                     (mkWorld sample_store (sample_request (Some "two"))))))) /\
  NoDup (map session_pk
           (session_table
              (db (cloned_world session_1 session_2
                     (mkWorld sample_store (sample_request (Some "two"))))))).
Proof.
  apply (clone_selections_keeps_keys sample_result_id "latest" "en"
           "one" session_2
           (mkWorld sample_store (sample_request (Some "two")))
           (with_origin session_1 session_2)).
  - apply (bool_decide_unpack _). vm_compute. exact I.
  - apply (bool_decide_unpack _). vm_compute. exact I.
  - reflexivity.
Defined.

Lemma route_index_page_lookup_witness :
  sample_route_index 3 None None (mkWorld abc_store (page_request "zzz"))
  = Raised DoesNotExist /\
  sample_route_index 3 None None (mkWorld twin_store (page_request "a"))
  = Raised MultipleObjectsReturned.
Proof.
  split.
  - apply (route_index_page_lookup sample_result_id "latest" "en" hidden
             no_substitute unit plain_step "en" [] no_forward
             blank 3 None None (mkWorld abc_store (page_request "zzz"))
             "zzz"); [reflexivity | discriminate | reflexivity].
  - apply (route_index_page_lookup sample_result_id "latest" "en" hidden
             no_substitute unit plain_step "en" [] no_forward
             blank 3 None None (mkWorld twin_store (page_request "a"))
             "a"); [reflexivity | discriminate | simpl; lia].
Defined.

Lemma route_index_without_pages_witness :
  sample_route_index 3 None None (mkWorld empty_store (sample_request None))
  = Raised AttributeError.
Proof.
  apply (route_index_without_pages sample_result_id "latest" "en" hidden
           no_substitute unit plain_step "en" [] no_forward
           blank); reflexivity.
Defined.

Lemma route_index_sessionless_page_witness :
  sample_route_index 3 None None (mkWorld welcome_store (sample_request None))
  = Raised AttributeError.
Proof.
  apply (route_index_sessionless_page sample_result_id "latest" "en" hidden
           no_substitute unit plain_step "en" [] no_forward
           blank 3 None None (mkWorld welcome_store (sample_request None))
           welcome_page (None, [welcome_page])); reflexivity.
Defined.

Lemma route_index_invisible_raises_witness :
  route_index sample_result_id "latest" "en" hidden substitute_C unit
    plain_step "en" [] no_forward blank 3 None None
    (mkWorld abc_store deep_request)
  = Raised TypeError.
Proof.
  apply (route_index_invisible_raises sample_result_id "latest" "en" hidden
           substitute_C unit plain_step "en" [] no_forward
           blank 3 None (mkWorld abc_store deep_request)
           page_A None [page_A; page_B; page_C] page_C);
    [reflexivity | reflexivity | reflexivity | reflexivity | reflexivity
    | discriminate | simpl; lia | reflexivity | reflexivity].
Defined.

Lemma route_index_render_status_witness :
  exists content,
    route_index_render visible no_substitute unit plain_step []
      blank None None None page_A session_2 [page_A] [] (Some 422) "/en"
      (mkWorld sample_store onboarded_request)
    = Returned (HttpResponse_ content (Some 200),
                mkWorld sample_store onboarded_request).
Proof.
  destruct (route_index_render_status visible no_substitute unit plain_step
              [] blank None None None page_A session_2 [page_A] []
              (Some 422) "/en" (mkWorld sample_store onboarded_request)
              session_2 "en")
    as (content & Hplain & _);
    [simpl; lia | reflexivity | reflexivity | reflexivity | reflexivity |].
  exists content. apply Hplain. intros accept Haccept. discriminate.
Defined.

Lemma route_index_render_never_not_allowed_witness :
  exists content status,
    HttpResponse_ "" (Some 200) = HttpResponse_ content status.
Proof.
  apply (route_index_render_never_not_allowed visible no_substitute unit
           plain_step [] blank None None None page_A session_2 [page_A] []
           (Some 422) "/en" (mkWorld sample_store onboarded_request)
           (HttpResponse_ "" (Some 200))
           (mkWorld sample_store onboarded_request)).
  reflexivity.
Defined.

Lemma route_index_cycle_hangs_witness :
  sample_route_index 5 None None (mkWorld ring_store (sample_request None))
  = Diverged.
Proof.
  apply (route_index_cycle_hangs sample_result_id "latest" "en" hidden
           no_substitute unit plain_step "en" [] no_forward
           blank 5 None None (mkWorld ring_store (sample_request None))
           ring_X); [reflexivity | reflexivity |].
  exists 1%nat. reflexivity.
Defined.

Lemma route_index_forwarded_witness :
  exists base_url w',
    route_index sample_result_id "latest" "en" hidden no_substitute unit
      plain_step "en" [] forward_moved blank 3 None None
      (mkWorld abc_store post_request)
    = Returned (HttpResponseRedirect (base_url +:+ "/b"), w').
Proof.
  apply (route_index_forwarded sample_result_id "latest" "en" hidden
           no_substitute unit plain_step "en" [] forward_moved
           blank 3 None (mkWorld abc_store post_request)
           page_A None [page_A; page_B; page_C]
           (fun base_url => HttpResponseRedirect (base_url +:+ "/b")));
    reflexivity.
Defined.

Lemma get_categories_and_filtered_pages_spec_witness :
  In page_B
    (fst (get_categories_and_filtered_pages only_B nav_store
            [page_A; page_B; page_C] session_2)) /\
  child_of category_a = None /\ In category_a (category_table nav_store).
Proof.
  pose proof (get_categories_and_filtered_pages_spec only_B nav_store
                [page_A; page_B; page_C] session_2)
    as (Hpages & _ & _ & Htop & _).
  split.
  - apply Hpages. split; [simpl; auto | reflexivity].
  - apply Htop. simpl. auto.
Defined.
